(** * HAOS kiosk: the idle / first-touch swallow daemon

    A shallow embedding of [haoskiosk/kiosk_idle.py] (class
    [IdleSwallowDaemon]) and the properties of its blank/wake state machine.

    Modelling conventions.
    - The daemon object [self] is a record; methods are computations in a
      small state/exception/trace monad [M].
    - Python floats (seconds) are modelled by exact rationals [Q]; rounding is
      not modelled.  [int] is [Z].
    - Everything outside the process (the X server, the clock, the shell, the
      descriptor wait) is a [World]: a family of oracles indexed by the number
      of external calls made so far, plus the queue of X events that the
      connection will deliver.
    - Every externally visible action, every log call and every attribute
      store is appended to a trace, so that the order of actions is part of
      what a method returns.
    - Only exceptions of class [Exception] are modelled (X errors, OS errors,
      missing attributes); asynchronous interrupts are not. *)

From Stdlib Require Import ZArith QArith Lqa Bool List String Lia.
From stdpp Require Import base option list gmap strings pretty.

Local Open Scope Z_scope.
Local Open Scope string_scope.

#[local] Arguments Qle_bool : simpl never.
#[local] Arguments Qminus : simpl never.
#[local] Arguments Qdiv : simpl never.
#[local] Arguments inject_Z : simpl never.

(* ===================================================================== *)
(** ** Data model *)
(* ===================================================================== *)

(** The attributes of an [IdleSwallowDaemon] instance ([self.disp] and
    [self.root] are handles to the world and carry no state of their own). *)
Record IdleSwallowDaemon := mkDaemon {
  timeout : Z;
  overlay : option Z;
  blanked : bool;
  last_activity : Q;
  ss_available : bool;
  xi2_raw_enabled : bool
}.

(** An X event as [process_events] looks at it: [ev.type] and
    [getattr(ev, 'evtype', None)]. *)
Record XEvent := mkEvent {
  ev_type : Z;
  ev_evtype : option Z
}.

(** The constants of [Xlib.X] that the source names. *)
Record XModule := mkX {
  KeyPress : Z;
  KeyRelease : Z;
  ButtonPress : Z;
  ButtonRelease : Z;
  MotionNotify : Z
}.

(** Event-mask bits; the source only ever ORs them together, so a mask is
    kept as the list of its bits. *)
Inductive MaskBit :=
| KeyPressMask | KeyReleaseMask | ButtonPressMask | ButtonReleaseMask
| PointerMotionMask | StructureNotifyMask.

(** Requests sent over the display connection. *)
Inductive XReq :=
| OpenDisplay
| ChangeAttributes (event_mask : list MaskBit)
| ScreenSaverQueryInfo
| XIQueryVersion (major minor : Z)
| XISelectEvents (mask : list Z)
| Flush
| CreateWindow (id : Z) (background_pixel : Z) (override_redirect : bool)
               (event_mask : list MaskBit)
| MapWindow (id : Z)
| UnmapWindow (id : Z)
| DestroyWindow (id : Z)
| Sync.

Inductive Exn :=
| XError (r : XReq)
| OSError (cmd : string)
| AttributeError (name : string).

Inductive Level := DEBUG | INFO | WARNING.

Inductive Msg :=
| MsgSsDetected
| MsgSsNotAvailable
| MsgXi2Enabled
| MsgXi2Failed (e : Exn)
| MsgCommandFailed (cmd : string) (e : Exn)
| MsgOverlayCreated (id : option Z)
| MsgOverlayDestroyed (id : option Z)
| MsgDestroyFailed (e : Exn)
| MsgBlanked
| MsgAwakened
| MsgSsQueryFailed
| MsgEvent (kind action : string) (is_blanked xi2_raw : bool)
| MsgStarted (t : Z).

Inductive Store :=
| SetTimeout (t : Z)
| SetOverlay (o : option Z)
| SetBlanked (b : bool)
| SetLastActivity (t : Q)
| SetSsAvailable (b : bool)
| SetXi2RawEnabled (b : bool).

(** One entry of the execution trace. *)
Inductive Effect :=
| EX (r : XReq)
| EShell (cmd : string)
| ESleep (secs : Q)
| ESelect (tmo : option Q)
| ELog (lvl : Level) (m : Msg)
| EStore (s : Store).

(** The world.  Each external call consumes one [tick]; the oracles say
    what the call at a given tick answers. *)
Record World := mkWorld {
  clock : nat -> Q;          (* time.time() *)
  x_raises : nat -> bool;    (* does the X request at this tick raise? *)
  ss_idle : nat -> Z;        (* info.idle of a successful query, in ms *)
  new_xid : nat -> Z;        (* id of a window created at this tick *)
  sh_raises : nat -> bool;   (* does subprocess.run raise? *)
  fd_ready : nat -> bool;    (* does select() report the descriptor ready? *)
  tick : nat;
  queue : list XEvent        (* events the connection delivers, in order *)
}.

Definition advance (w : World) : World :=
  mkWorld (clock w) (x_raises w) (ss_idle w) (new_xid w) (sh_raises w)
          (fd_ready w) (S (tick w)) (queue w).

Definition with_queue (q : list XEvent) (w : World) : World :=
  mkWorld (clock w) (x_raises w) (ss_idle w) (new_xid w) (sh_raises w)
          (fd_ready w) (tick w) q.

(* ===================================================================== *)
(** ** Concrete inputs *)
(* ===================================================================== *)

(** The event codes of the X11 core protocol. *)
Definition X11 : XModule := mkX 2 3 4 5 6.

(** The XI2 raw event codes, as a module that has the touch names. *)
Definition xinput2 (name : string) : option Z :=
  if String.eqb name "RawKeyPress" then Some 13
  else if String.eqb name "RawKeyRelease" then Some 14
  else if String.eqb name "RawButtonPress" then Some 15
  else if String.eqb name "RawButtonRelease" then Some 16
  else if String.eqb name "RawMotion" then Some 17
  else if String.eqb name "RawTouchBegin" then Some 22
  else if String.eqb name "RawTouchUpdate" then Some 23
  else if String.eqb name "RawTouchEnd" then Some 24
  else None.

(** A world in which every call succeeds, the clock stands at [now], the
    platform reports [idle_ms] of idle time, the descriptor is ready, and
    the connection delivers the events [q]. *)
Definition steady (now : Q) (idle_ms : Z) (q : list XEvent) : World :=
  mkWorld (fun _ => now) (fun _ => false) (fun _ => idle_ms)
          (fun _ => 4194305) (fun _ => false) (fun _ => true) O q.

(** The same world, except that every X request raises. *)
Definition failing (now : Q) (q : list XEvent) : World :=
  mkWorld (fun _ => now) (fun _ => true) (fun _ => 0)
          (fun _ => 4194305) (fun _ => false) (fun _ => true) O q.

(** A world without the screen-saver extension: the fourth external call,
    which in [__init__] is the idle query, raises; every other call
    succeeds. *)
Definition no_screensaver (now : Q) (q : list XEvent) : World :=
  mkWorld (fun _ => now) (fun n => Nat.eqb n 3) (fun _ => 0)
          (fun _ => 4194305) (fun _ => false) (fun _ => true) O q.

(** A world in which every call succeeds and the clock reads the number
    of external calls made so far. *)
Definition ticking (q : list XEvent) : World :=
  mkWorld (fun n => inject_Z (Z.of_nat n)) (fun _ => false) (fun _ => 0)
          (fun _ => 4194305) (fun _ => false) (fun _ => true) O q.

(** A daemon as [__init__] leaves it when the platform idle query works. *)
Definition awake_daemon : IdleSwallowDaemon :=
  mkDaemon 5 None false 0%Q true false.

(** A blanked daemon on the fallback path with raw events subscribed. *)
Definition blanked_daemon : IdleSwallowDaemon :=
  mkDaemon 5 (Some 4194305) true 0%Q false true.

(** Some events. *)
Definition button_press : XEvent := mkEvent 4 None.
Definition configure_notify : XEvent := mkEvent 22 None.
Definition raw (code : Z) : XEvent := mkEvent 35 (Some code).

(* ===================================================================== *)
(** ** The monad *)
(* ===================================================================== *)

Inductive Res (A : Type) :=
| Ret (a : A)
| Raise (e : Exn).
Arguments Ret {A} a.
Arguments Raise {A} e.

Record Out (A : Type) := mkOut {
  result : Res A;
  self' : IdleSwallowDaemon;
  world' : World;
  emitted : list Effect
}.
Arguments mkOut {A} _ _ _ _.
Arguments result {A} _.
Arguments self' {A} _.
Arguments world' {A} _.
Arguments emitted {A} _.

Definition M (A : Type) : Type := IdleSwallowDaemon -> World -> Out A.

Definition ret {A} (a : A) : M A := fun d w => mkOut (Ret a) d w [].

Definition raise {A} (e : Exn) : M A := fun d w => mkOut (Raise e) d w [].

Definition bind {A B} (m : M A) (f : A -> M B) : M B := fun d w =>
  match m d w with
  | mkOut (Ret a) d1 w1 t1 =>
      match f a d1 w1 with
      | mkOut r d2 w2 t2 => mkOut r d2 w2 (t1 ++ t2)
      end
  | mkOut (Raise e) d1 w1 t1 => mkOut (Raise e) d1 w1 t1
  end.

(** [try: m except Exception as e: h e] *)
Definition try_except {A} (m : M A) (h : Exn -> M A) : M A := fun d w =>
  match m d w with
  | mkOut (Ret a) d1 w1 t1 => mkOut (Ret a) d1 w1 t1
  | mkOut (Raise e) d1 w1 t1 =>
      match h e d1 w1 with
      | mkOut r d2 w2 t2 => mkOut r d2 w2 (t1 ++ t2)
      end
  end.

(** [try: m finally: fin] *)
Definition try_finally {A} (m : M A) (fin : M unit) : M A := fun d w =>
  match m d w with
  | mkOut r d1 w1 t1 =>
      match fin d1 w1 with
      | mkOut (Ret _) d2 w2 t2 => mkOut r d2 w2 (t1 ++ t2)
      | mkOut (Raise e) d2 w2 t2 => mkOut (Raise e) d2 w2 (t1 ++ t2)
      end
  end.

Declare Scope daemon_scope.
Delimit Scope daemon_scope with daemon.
Notation "x <- m ;; k" := (bind m (fun x => k))
  (at level 100, m at next level, right associativity) : daemon_scope.
Notation "m ;; k" := (bind m (fun _ => k))
  (at level 100, right associativity) : daemon_scope.
Local Open Scope daemon_scope.

(** *** Primitive computations *)

Definition emit (e : Effect) : M unit := fun d w => mkOut (Ret tt) d w [e].

Definition attr {A} (f : IdleSwallowDaemon -> A) : M A :=
  fun d w => mkOut (Ret (f d)) d w [].

(** The effect of an attribute assignment on the object. *)
Definition assign (s : Store) (d : IdleSwallowDaemon) : IdleSwallowDaemon :=
  match s with
  | SetTimeout t =>
      mkDaemon t (overlay d) (blanked d) (last_activity d)
               (ss_available d) (xi2_raw_enabled d)
  | SetOverlay o =>
      mkDaemon (timeout d) o (blanked d) (last_activity d)
               (ss_available d) (xi2_raw_enabled d)
  | SetBlanked b =>
      mkDaemon (timeout d) (overlay d) b (last_activity d)
               (ss_available d) (xi2_raw_enabled d)
  | SetLastActivity t =>
      mkDaemon (timeout d) (overlay d) (blanked d) t
               (ss_available d) (xi2_raw_enabled d)
  | SetSsAvailable b =>
      mkDaemon (timeout d) (overlay d) (blanked d) (last_activity d)
               b (xi2_raw_enabled d)
  | SetXi2RawEnabled b =>
      mkDaemon (timeout d) (overlay d) (blanked d) (last_activity d)
               (ss_available d) b
  end.

Definition store (s : Store) : M unit := fun d w =>
  mkOut (Ret tt) (assign s d) w [EStore s].

Definition logging (lvl : Level) (m : Msg) : M unit := emit (ELog lvl m).

(** [time.time()] *)
Definition time_time : M Q := fun d w =>
  mkOut (Ret (clock w (tick w))) d (advance w) [].

(** [time.sleep(secs)] *)
Definition time_sleep (secs : Q) : M unit := fun d w =>
  mkOut (Ret tt) d (advance w) [ESleep secs].

(** A request on the display connection; it may raise. *)
Definition xcall (r : XReq) : M unit := fun d w =>
  mkOut (if x_raises w (tick w) then Raise (XError r) else Ret tt)
        d (advance w) [EX r].

(** [screensaver.query_info(disp, root).reply()], returning [info.idle]. *)
Definition query_info : M Z := fun d w =>
  mkOut (if x_raises w (tick w) then Raise (XError ScreenSaverQueryInfo)
         else Ret (ss_idle w (tick w)))
        d (advance w) [EX ScreenSaverQueryInfo].

(** [root.create_window(...)]: the new window's id comes from the world. *)
Definition create_window (background_pixel : Z) (override_redirect : bool)
    (event_mask : list MaskBit) : M Z := fun d w =>
  let id := new_xid w (tick w) in
  let r := CreateWindow id background_pixel override_redirect event_mask in
  mkOut (if x_raises w (tick w) then Raise (XError r) else Ret id)
        d (advance w) [EX r].

(** [subprocess.run(cmd, shell=True, check=False, ...)] *)
Definition subprocess_run (cmd : string) : M unit := fun d w =>
  mkOut (if sh_raises w (tick w) then Raise (OSError cmd) else Ret tt)
        d (advance w) [EShell cmd].

(** [select.select([x_fd], [], [], timeout)]; [true] when [rlist] is
    non-empty. *)
Definition select_select (tmo : option Q) : M bool := fun d w =>
  mkOut (Ret (fd_ready w (tick w))) d (advance w) [ESelect tmo].

(** [disp.pending_events()] followed, when it is non-zero, by
    [disp.next_event()]. *)
Definition poll_event : M (option XEvent) := fun d w =>
  match queue w with
  | [] => mkOut (Ret None) d w []
  | ev :: q => mkOut (Ret (Some ev)) d (with_queue q w) []
  end.

(* ===================================================================== *)
(** ** The daemon *)
(* ===================================================================== *)

(** [max(a, b)] of Python on two numbers: [b] when [b > a], else [a]. *)
Definition py_max (a b : Q) : Q := if Qle_bool b a then a else b.

(** [bool(x)] of an optional integer attribute. *)
Definition truthy (o : option Z) : bool :=
  match o with
  | Some c => negb (c =? 0)%Z
  | None => false
  end.

(** The names that [process_events] looks up in [xinput], in the order of
    the source's loop. *)
Definition raw_names : list string :=
  ["RawMotion"; "RawKeyPress"; "RawKeyRelease"; "RawButtonPress";
   "RawButtonRelease"; "RawTouchBegin"; "RawTouchUpdate"; "RawTouchEnd"].

(** The raw kinds that wake a blanked screen. *)
Definition wake_raw_names : list string :=
  ["RawButtonPress"; "RawTouchBegin"; "RawKeyPress"].

Definition settle_delay : Q := 5 # 100.

Definition power_off_cmd : string := "xset dpms force off".
Definition power_on_cmd : string := "xset dpms force on".

Section Daemon.

(** What the source takes from python-xlib and from the environment:
    the core event codes, the attributes of the [xinput] module
    ([getattr]/[hasattr]), and whether the root logger is at DEBUG
    ([KIOSK_IDLE_DEBUG]). *)
Variable X : XModule.
Variable xinput : string -> option Z.
Variable KIOSK_IDLE_DEBUG : bool.

(** [xinput.<name>]: raises [AttributeError] when the module lacks it. *)
Definition getattr_xinput (name : string) : M Z :=
  match xinput name with
  | Some c => ret c
  | None => raise (AttributeError name)
  end.

(** *** [__init__] *)

Definition root_event_mask : list MaskBit :=
  [KeyPressMask; KeyReleaseMask; ButtonPressMask; ButtonReleaseMask;
   PointerMotionMask; StructureNotifyMask].

(** The [for maybe_touch in (...)] loop of [__init__]. *)
Fixpoint append_touch (names : list string) (masks : list Z) : list Z :=
  match names with
  | [] => masks
  | n :: rest =>
      match xinput n with
      | Some c => append_touch rest (masks ++ [c])
      | None => append_touch rest masks
      end
  end.

Definition enable_xi2 : M unit :=
  xcall (XIQueryVersion 2 3) ;;
  m1 <- getattr_xinput "RawMotion" ;;
  m2 <- getattr_xinput "RawKeyPress" ;;
  m3 <- getattr_xinput "RawKeyRelease" ;;
  m4 <- getattr_xinput "RawButtonPress" ;;
  m5 <- getattr_xinput "RawButtonRelease" ;;
  let masks :=
    append_touch ["RawTouchBegin"; "RawTouchEnd"; "RawTouchUpdate"]
                 [m1; m2; m3; m4; m5] in
  xcall (XISelectEvents masks) ;;
  xcall Flush ;;
  store (SetXi2RawEnabled true) ;;
  logging INFO MsgXi2Enabled.

Definition __init__ (timeout_arg : Z) : M unit :=
  store (SetTimeout timeout_arg) ;;
  xcall OpenDisplay ;;
  xcall (ChangeAttributes root_event_mask) ;;
  store (SetOverlay None) ;;
  store (SetBlanked false) ;;
  now <- time_time ;;
  store (SetLastActivity now) ;;
  try_except
    (query_info ;;
     store (SetSsAvailable true) ;;
     logging INFO MsgSsDetected)
    (fun _ =>
     store (SetSsAvailable false) ;;
     logging INFO MsgSsNotAvailable) ;;
  store (SetXi2RawEnabled false) ;;
  ss <- attr ss_available ;;
  if negb ss then
    try_except enable_xi2 (fun e => logging WARNING (MsgXi2Failed e))
  else ret tt.

(** The object before [__init__] has run: no attribute is set yet, so the
    values below are never read. *)
Definition uninitialised : IdleSwallowDaemon :=
  mkDaemon 0 None false 0%Q false false.

(** *** Utility commands *)

Definition _run (cmd : string) : M unit :=
  try_except (subprocess_run cmd)
             (fun e => logging WARNING (MsgCommandFailed cmd e)).

(** *** Overlay management *)

Definition overlay_event_mask : list MaskBit :=
  [ButtonPressMask; ButtonReleaseMask; PointerMotionMask; KeyPressMask;
   KeyReleaseMask].

Definition create_overlay : M unit :=
  ov <- attr overlay ;;
  match ov with
  | Some _ => ret tt
  | None =>
      win <- create_window 0 true overlay_event_mask ;;
      xcall (MapWindow win) ;;
      xcall Sync ;;
      store (SetOverlay (Some win)) ;;
      ov' <- attr overlay ;;
      logging INFO (MsgOverlayCreated ov')
  end.

Definition destroy_overlay : M unit :=
  ov <- attr overlay ;;
  match ov with
  | None => ret tt
  | Some id =>
      try_finally
        (try_except
           (xcall (UnmapWindow id) ;;
            xcall (DestroyWindow id) ;;
            xcall Sync ;;
            ov' <- attr overlay ;;
            logging INFO (MsgOverlayDestroyed ov'))
           (fun e => logging WARNING (MsgDestroyFailed e)))
        (store (SetOverlay None))
  end.

(** *** Blank / wake logic *)

Definition blank_screen : M unit :=
  b <- attr blanked ;;
  if b then ret tt
  else
    create_overlay ;;
    _run power_off_cmd ;;
    store (SetBlanked true) ;;
    logging INFO MsgBlanked.

Definition wake_screen : M unit :=
  b <- attr blanked ;;
  if negb b then ret tt
  else
    _run power_on_cmd ;;
    time_sleep settle_delay ;;
    destroy_overlay ;;
    store (SetBlanked false) ;;
    now <- time_time ;;
    store (SetLastActivity now) ;;
    logging INFO MsgAwakened.

(** *** Idle time *)

Definition get_idle_seconds : M Q :=
  ss <- attr ss_available ;;
  early <-
    (if ss then
       try_except
         (idle <- query_info ;;
          ret (Some (inject_Z idle / 1000)%Q))
         (fun _ =>
            ss' <- attr ss_available ;;
            (if ss' then logging WARNING MsgSsQueryFailed else ret tt) ;;
            store (SetSsAvailable false) ;;
            ret None)
     else ret None) ;;
  match early with
  | Some v => ret v
  | None =>
      now <- time_time ;;
      last <- attr last_activity ;;
      ret (py_max 0 (now - last))%Q
  end.

(** *** Event handling *)

(** The [core_names] dict literal; a repeated key keeps its last value. *)
Definition core_names : gmap Z string :=
  <[MotionNotify X := "MotionNotify"]>
    (<[ButtonRelease X := "ButtonRelease"]>
       (<[ButtonPress X := "ButtonPress"]>
          (<[KeyRelease X := "KeyRelease"]>
             (<[KeyPress X := "KeyPress"]> ∅)))).

(** The [raw_map] dict: one entry per name that [xinput] has. *)
Definition raw_map : gmap Z string :=
  fold_left
    (fun (m : gmap Z string) (name : string) =>
       match xinput name with
       | Some c => <[c := name]> m
       | None => m
       end)
    raw_names ∅.

(** [raw_map.get(evtype_attr, f"RawUnknown({evtype_attr})")] *)
Definition raw_name_of (evtype_attr : Z) : string :=
  match raw_map !! evtype_attr with
  | Some name => name
  | None => "RawUnknown(" +:+ pretty evtype_attr +:+ ")"
  end.

(** [x in (a, b, c)] on strings. *)
Definition str_in (x : string) (l : list string) : bool :=
  existsb (String.eqb x) l.

(** The local helper [log_event] of [process_events]. *)
Definition log_event (evtype_attr : option Z) (event_kind action : string)
  : M unit :=
  if KIOSK_IDLE_DEBUG then
    b <- attr blanked ;;
    xi2 <- attr xi2_raw_enabled ;;
    logging DEBUG (MsgEvent event_kind action b (xi2 && truthy evtype_attr))
  else ret tt.

(** The [else] branch shared by the core and the raw path. *)
Definition note_activity (evtype_attr : option Z) (kind : string) : M unit :=
  ss <- attr ss_available ;;
  if negb ss then
    now <- time_time ;;
    store (SetLastActivity now) ;;
    log_event evtype_attr kind "activity-update"
  else
    log_event evtype_attr kind "seen-no-update".

(** The body of the [while] loop for one event [ev]; returns the new value
    of the local [activity]. *)
Definition handle_event (swallow_if_blanked : bool) (ev : XEvent)
    (activity : bool) : M bool :=
  let etype := ev_type ev in
  let evtype_attr := ev_evtype ev in
  match core_names !! etype with
  | Some name =>
      b <- attr blanked ;;
      (if b && swallow_if_blanked then
         log_event evtype_attr name "wake+swallow" ;;
         wake_screen
       else note_activity evtype_attr name) ;;
      ret true
  | None =>
      xi2 <- attr xi2_raw_enabled ;;
      match evtype_attr with
      | Some c =>
          if xi2 then
            let raw_name := raw_name_of c in
            b <- attr blanked ;;
            (if b && swallow_if_blanked && str_in raw_name wake_raw_names
             then
               log_event evtype_attr raw_name "wake+swallow" ;;
               wake_screen
             else note_activity evtype_attr raw_name) ;;
            ret true
          else ret activity
      | None => ret activity
      end
  end.

(** The [while self.disp.pending_events()] loop.  [fuel] bounds the number
    of iterations; [process_events] supplies one more than the queue
    holds, so the loop always ends on an empty queue. *)
Fixpoint process_loop (fuel : nat) (swallow_if_blanked : bool)
    (activity : bool) : M bool :=
  match fuel with
  | O => ret activity
  | S n =>
      next <- poll_event ;;
      match next with
      | None => ret activity
      | Some ev =>
          a <- handle_event swallow_if_blanked ev activity ;;
          process_loop n swallow_if_blanked a
      end
  end.

Definition process_events (swallow_if_blanked : bool) : M bool :=
  fun d w =>
    process_loop (S (length (queue w))) swallow_if_blanked false d w.

(** *** Main loop *)

(** One pass through the body of [while True] in [run]. *)
Definition run_iteration : M unit :=
  b <- attr blanked ;;
  tmo <-
    (if negb b then
       idle_sec <- get_idle_seconds ;;
       t <- attr timeout ;;
       let remaining := (inject_Z t - idle_sec)%Q in
       if Qle_bool remaining 0 then
         blank_screen ;;
         ret None
       else ret (Some remaining)
     else ret None) ;;
  ready <- select_select tmo ;;
  if negb ready then ret tt
  else
    process_events true ;;
    ret tt.

(** [run], cut after [n] passes of its loop (the loop itself never ends
    normally). *)
Fixpoint run_loop (n : nat) : M unit :=
  match n with
  | O => ret tt
  | S k => run_iteration ;; run_loop k
  end.

Definition run (n : nat) : M unit :=
  t <- attr timeout ;;
  logging INFO (MsgStarted t) ;;
  run_loop n.

(** *** Sequences of operations *)

(** The operations that act on a constructed daemon. *)
Inductive Op :=
| OpBlank
| OpWake
| OpProcess (swallow_if_blanked : bool)
| OpIdle
| OpIterate.

Definition run_op (o : Op) : M unit :=
  match o with
  | OpBlank => blank_screen
  | OpWake => wake_screen
  | OpProcess s => process_events s ;; ret tt
  | OpIdle => get_idle_seconds ;; ret tt
  | OpIterate => run_iteration
  end.

(** Run a script of operations, each in a world of its own (the
    environment is free to change between two operations); the traces are
    concatenated.  The state that an operation leaves behind is kept even
    when the operation raised. *)
Fixpoint exec (script : list (Op * World)) (d : IdleSwallowDaemon)
  : IdleSwallowDaemon * list Effect :=
  match script with
  | [] => (d, [])
  | (o, w) :: rest =>
      let out := run_op o d w in
      let '(d', t) := exec rest (self' out) in
      (d', (emitted out ++ t)%list)
  end.

(* ===================================================================== *)
(** ** Vocabulary of the properties *)
(* ===================================================================== *)

(** The state invariant: the overlay handle is present exactly when the
    daemon is blanked. *)
Definition invariant (d : IdleSwallowDaemon) : Prop :=
  is_Some (overlay d) <-> blanked d = true.

(** When does an event, seen while blanked with swallowing on, make
    [process_events] call [wake_screen]?  [xi2] is the value of
    [self.xi2_raw_enabled]. *)
Definition qualifies (xi2 : bool) (ev : XEvent) : bool :=
  match core_names !! ev_type ev with
  | Some _ => true
  | None =>
      match ev_evtype ev with
      | Some c => xi2 && str_in (raw_name_of c) wake_raw_names
      | None => false
      end
  end.

(** Is an event counted as activity at all (either path is taken)? *)
Definition observed_as_input (xi2 : bool) (ev : XEvent) : bool :=
  match core_names !! ev_type ev with
  | Some _ => true
  | None =>
      match ev_evtype ev with
      | Some _ => xi2
      | None => false
      end
  end.

(** *** Observations on traces *)

(** The timeouts of the descriptor waits, in order. *)
Definition waits (t : list Effect) : list (option Q) :=
  omap (fun e => match e with ESelect tmo => Some tmo | _ => None end) t.

(** The shell commands issued, in order. *)
Definition shell_cmds (t : list Effect) : list string :=
  omap (fun e => match e with EShell c => Some c | _ => None end) t.

(** The X requests issued, in order. *)
Definition x_requests (t : list Effect) : list XReq :=
  omap (fun e => match e with EX r => Some r | _ => None end) t.

(** An entry that only the blank or the wake action produces: a shell
    command, a sleep, an X request other than the idle query, or a store
    to [blanked] or [overlay]. *)
Definition transition_effect (e : Effect) : bool :=
  match e with
  | EShell _ | ESleep _ => true
  | EX ScreenSaverQueryInfo => false
  | EX _ => true
  | EStore (SetBlanked _) | EStore (SetOverlay _) => true
  | _ => false
  end.

Definition is_wait (e : Effect) : bool :=
  match e with
  | ESelect _ => true
  | _ => false
  end.

(** What the processing of events by an awake daemon may emit. *)
Definition ordinary (e : Effect) : Prop :=
  transition_effect e = false /\ is_wait e = false.

(** Do the three requests of an overlay creation started in [w] all
    succeed? *)
Definition creation_succeeds (w : World) : bool :=
  negb (x_raises w (tick w)) && negb (x_raises w (S (tick w))) &&
  negb (x_raises w (S (S (tick w)))).


(** Number of wake actions in a trace: each issues the power-on command
    once. *)
Definition wake_count (t : list Effect) : nat :=
  length (filter (String.eqb power_on_cmd) (shell_cmds t)).

(** No constraint on trace entries. *)
Definition any_effect (e : Effect) : Prop := True.

(** A trace in which the surface is created, and the power-off command is
    issued, at most once. *)
Definition is_create_window (r : XReq) : bool :=
  match r with
  | CreateWindow _ _ _ _ => true
  | _ => false
  end.

Definition at_most_one_blank (t : list Effect) : Prop :=
  (length (filter is_create_window (x_requests t)) <= 1)%nat /\
  (length (filter (String.eqb power_off_cmd) (shell_cmds t)) <= 1)%nat.

(** Entries that would re-enable the platform idle query, and entries
    that touch the raw-input subscription. *)
Definition reenables_query (e : Effect) : bool :=
  match e with
  | EStore (SetSsAvailable true) => true
  | _ => false
  end.

Definition xi2_request (e : Effect) : bool :=
  match e with
  | EX (XISelectEvents _) | EX (XIQueryVersion _ _) => true
  | _ => false
  end.

Definition touches_subscription (e : Effect) : bool :=
  match e with
  | EStore (SetXi2RawEnabled _) => true
  | _ => xi2_request e
  end.

(** The tail of the loop body: what follows the computation of the wait
    timeout. *)
Definition wait_and_dispatch (tmo : option Q) : M unit :=
  ready <- select_select tmo ;;
  if negb ready then ret tt
  else
    process_events true ;;
    ret tt.

(** An outcome with a trace put in front of its own. *)
Definition after {A} (t : list Effect) (o : Out A) : Out A :=
  mkOut (result o) (self' o) (world' o) (t ++ emitted o).

(** The debug line that [log_event] writes for an event, if any. *)
Definition event_log (evtype_attr : option Z) (kind action : string)
    (d : IdleSwallowDaemon) : list Effect :=
  if KIOSK_IDLE_DEBUG
  then [ELog DEBUG (MsgEvent kind action (blanked d)
                      (xi2_raw_enabled d && truthy evtype_attr))]
  else [].

(** An outcome with its returned value replaced. *)
Definition returning {A B} (b : B) (o : Out A) : Out B :=
  mkOut (Ret b) (self' o) (world' o) (emitted o).

(** The codes of the raw names are pairwise distinct. *)
Definition distinct_codes : Prop :=
  forall n1 n2 c,
    In n1 raw_names -> In n2 raw_names ->
    xinput n1 = Some c -> xinput n2 = Some c -> n1 = n2.

(** The name under which [process_events] logs an event: its core name,
    or else the raw name of its [evtype]. *)
Definition event_kind (ev : XEvent) : string :=
  match core_names !! ev_type ev with
  | Some name => name
  | None =>
      match ev_evtype ev with
      | Some c => raw_name_of c
      | None => ""
      end
  end.

(** Ordinary activity, spelled out without reference to the methods: the
    events [evs] are taken off the queue one by one; an event that counts
    as input is logged and, when the fallback idle path is active, stores
    the clock reading of that moment into [last_activity]; any other event
    is dropped.  Nothing else is done: no command, no request, no store to
    [blanked] or [overlay].  [a] is the value of [activity] so far. *)
Fixpoint ordinary_activity (evs : list XEvent) (a : bool)
    (d : IdleSwallowDaemon) (w : World) : Out bool :=
  match evs with
  | [] => mkOut (Ret a) d w []
  | ev :: rest =>
      let w0 := with_queue (tl (queue w)) w in
      if observed_as_input (xi2_raw_enabled d) ev then
        if ss_available d then
          after (event_log (ev_evtype ev) (event_kind ev) "seen-no-update" d)
                (ordinary_activity rest true d w0)
        else
          let now := clock w0 (tick w0) in
          let d1 := assign (SetLastActivity now) d in
          after (EStore (SetLastActivity now) ::
                 event_log (ev_evtype ev) (event_kind ev) "activity-update" d1)
                (ordinary_activity rest true d1 (advance w0))
      else ordinary_activity rest a d w0
  end.

(** The reading "every observed event is activity": whatever single event
    an awake daemon on the fallback path drains, [last_activity] is the
    clock reading of that moment afterwards. *)
Definition every_observed_event_is_activity : Prop :=
  forall (d : IdleSwallowDaemon) (w : World) (ev : XEvent),
    blanked d = false -> ss_available d = false -> queue w = [ev] ->
    let o := process_events true d w in
    queue (world' o) = [] /\
    (last_activity (self' o) == clock w (tick w))%Q.

(** [keeps P R m]: from a state satisfying [P], the computation [m] ends
    (normally or by raising) in a state satisfying [P], and every entry of
    the trace it emits satisfies [R]. *)
Definition keeps {A} (P : IdleSwallowDaemon -> Prop) (R : Effect -> Prop)
    (m : M A) : Prop :=
  forall d w, P d -> P (self' (m d w)) /\ Forall R (emitted (m d w)).

(** The world [w] after [n] external calls. *)
Definition later (n : nat) (w : World) : World := Nat.iter n advance w.

(* ===================================================================== *)
(** ** Reasoning principles *)
(* ===================================================================== *)

Section Keeps.

Context (P : IdleSwallowDaemon -> Prop) (R : Effect -> Prop).

Lemma keeps_ret {A} (a : A) : keeps P R (ret a).
Proof. intros d w H; cbn; auto. Qed.

Lemma keeps_raise {A} (e : Exn) : keeps P R (@raise A e).
Proof. intros d w H; cbn; auto. Qed.

Lemma keeps_bind {A B} (m : M A) (f : A -> M B) :
  keeps P R m -> (forall a, keeps P R (f a)) -> keeps P R (bind m f).
Proof.
  intros Hm Hf d w H. unfold bind.
  destruct (Hm d w H) as [H1 T1].
  destruct (m d w) as [[a|e] d1 w1 t1]; cbn in *; auto.
  destruct (Hf a d1 w1 H1) as [H2 T2].
  destruct (f a d1 w1) as [r d2 w2 t2]; cbn in *.
  split; auto. apply Forall_app; auto.
Qed.

Lemma keeps_try_except {A} (m : M A) (h : Exn -> M A) :
  keeps P R m -> (forall e, keeps P R (h e)) -> keeps P R (try_except m h).
Proof.
  intros Hm Hh d w H. unfold try_except.
  destruct (Hm d w H) as [H1 T1].
  destruct (m d w) as [[a|e] d1 w1 t1]; cbn in *; auto.
  destruct (Hh e d1 w1 H1) as [H2 T2].
  destruct (h e d1 w1) as [r d2 w2 t2]; cbn in *.
  split; auto. apply Forall_app; auto.
Qed.

Lemma keeps_try_finally {A} (m : M A) (fin : M unit) :
  keeps P R m -> keeps P R fin -> keeps P R (try_finally m fin).
Proof.
  intros Hm Hf d w H. unfold try_finally.
  destruct (Hm d w H) as [H1 T1].
  destruct (m d w) as [r d1 w1 t1]; cbn in *.
  destruct (Hf d1 w1 H1) as [H2 T2].
  destruct (fin d1 w1) as [[[]|e] d2 w2 t2]; cbn in *;
    (split; auto; apply Forall_app; auto).
Qed.

Lemma keeps_attr {A} (f : IdleSwallowDaemon -> A) : keeps P R (attr f).
Proof. intros d w H; cbn; auto. Qed.

Lemma keeps_store (s : Store) :
  (forall d, P d -> P (assign s d)) -> R (EStore s) -> keeps P R (store s).
Proof. intros Hs Hr d w H; cbn; auto. Qed.

Lemma keeps_logging lvl msg : R (ELog lvl msg) -> keeps P R (logging lvl msg).
Proof. intros Hr d w H; cbn; auto. Qed.

Lemma keeps_time_time : keeps P R time_time.
Proof. intros d w H; cbn; auto. Qed.

Lemma keeps_time_sleep q : R (ESleep q) -> keeps P R (time_sleep q).
Proof. intros Hr d w H; cbn; auto. Qed.

Lemma keeps_xcall r : R (EX r) -> keeps P R (xcall r).
Proof. intros Hr d w H; cbn; auto. Qed.

Lemma keeps_query_info : R (EX ScreenSaverQueryInfo) -> keeps P R query_info.
Proof. intros Hr d w H; cbn; auto. Qed.

Lemma keeps_create_window bg ovr mask :
  (forall id, R (EX (CreateWindow id bg ovr mask))) ->
  keeps P R (create_window bg ovr mask).
Proof. intros Hr d w H; cbn; auto. Qed.

Lemma keeps_subprocess_run cmd : R (EShell cmd) -> keeps P R (subprocess_run cmd).
Proof. intros Hr d w H; cbn; auto. Qed.

Lemma keeps_select_select tmo : R (ESelect tmo) -> keeps P R (select_select tmo).
Proof. intros Hr d w H; cbn; auto. Qed.

Lemma keeps_poll_event : keeps P R poll_event.
Proof. intros d w H; unfold poll_event; destruct (queue w); cbn; auto. Qed.

End Keeps.

(** *** The loop of [process_events] *)

Lemma keeps_process_loop P R fuel swallow activity :
  (forall ev a, keeps P R (handle_event swallow ev a)) ->
  keeps P R (process_loop fuel swallow activity).
Proof.
  intros Hh. revert activity.
  induction fuel as [|n IH]; intros activity; cbn [process_loop].
  - apply keeps_ret.
  - apply keeps_bind; [apply keeps_poll_event|].
    intros [ev|]; [|apply keeps_ret].
    apply keeps_bind; [apply Hh|]. intros a; apply IH.
Qed.

Lemma keeps_process_events P R swallow :
  (forall ev a, keeps P R (handle_event swallow ev a)) ->
  keeps P R (process_events swallow).
Proof.
  intros Hh d w. unfold process_events.
  apply keeps_process_loop; auto.
Qed.

(** Running a script keeps what every operation keeps. *)
Lemma keeps_exec P R :
  (forall o, keeps P R (run_op o)) ->
  forall script d, P d ->
    P (fst (exec script d)) /\ Forall R (snd (exec script d)).
Proof.
  intros Hop script. induction script as [|[o w] rest IH]; intros d H.
  - cbn; auto.
  - cbn [exec].
    destruct (Hop o d w H) as [H1 T1].
    destruct (IH _ H1) as [H2 T2].
    destruct (exec rest (self' (run_op o d w))) as [d' t]; cbn in *.
    split; auto. apply Forall_app; auto.
Qed.



Create HintDb keeps discriminated.

Ltac head_of m :=
  lazymatch m with
  | ?f _ => head_of f
  | _ => m
  end.

(** Decompose a [keeps] goal along the structure of the program; lemmas in
    the [keeps] database are tried first, so that a method already dealt
    with is not opened again. *)
Ltac keeps_step :=
  first
    [ solve [auto 1 with keeps]
    | match goal with
      | |- keeps _ _ (bind _ _) => apply keeps_bind; [ | intros ? ]
      | |- keeps _ _ (ret _) => apply keeps_ret
      | |- keeps _ _ (raise _) => apply keeps_raise
      | |- keeps _ _ (try_except _ _) => apply keeps_try_except; [ | intros ? ]
      | |- keeps _ _ (try_finally _ _) => apply keeps_try_finally
      | |- keeps _ _ (attr _) => apply keeps_attr
      | |- keeps _ _ (store _) => apply keeps_store
      | |- keeps _ _ (logging _ _) => apply keeps_logging
      | |- keeps _ _ time_time => apply keeps_time_time
      | |- keeps _ _ (time_sleep _) => apply keeps_time_sleep
      | |- keeps _ _ (xcall _) => apply keeps_xcall
      | |- keeps _ _ query_info => apply keeps_query_info
      | |- keeps _ _ (create_window _ _ _) => apply keeps_create_window; intros ?
      | |- keeps _ _ (subprocess_run _) => apply keeps_subprocess_run
      | |- keeps _ _ (select_select _) => apply keeps_select_select
      | |- keeps _ _ poll_event => apply keeps_poll_event
      | |- keeps _ _ (process_events _) =>
          apply keeps_process_events; intros ? ?
      | |- keeps _ _ (if ?b then _ else _) => destruct b
      | |- keeps _ _ (match ?o with _ => _ end) => destruct o
      | |- keeps _ _ (let _ := _ in _) => cbv zeta
      | |- keeps _ _ ?m => let h := head_of m in unfold h
      end ].

Ltac keeps_auto := repeat keeps_step.

(** *** Equations of the monad *)

Lemma out_eta {A} (o : Out A) :
  mkOut (result o) (self' o) (world' o) (emitted o) = o.
Proof. destruct o; reflexivity. Qed.

Lemma bind_attr {A B} (f : IdleSwallowDaemon -> A) (k : A -> M B) d w :
  bind (attr f) k d w = k (f d) d w.
Proof. unfold bind, attr. destruct (k (f d) d w); reflexivity. Qed.

Lemma bind_ret {A B} (a : A) (k : A -> M B) d w :
  bind (ret a) k d w = k a d w.
Proof. unfold bind, ret. destruct (k a d w); reflexivity. Qed.

Lemma bind_assoc {A B C} (m : M A) (f : A -> M B) (g : B -> M C) d w :
  bind (bind m f) g d w = bind m (fun a => bind (f a) g) d w.
Proof.
  unfold bind. destruct (m d w) as [[a|e] d1 w1 t1]; [|reflexivity].
  destruct (f a d1 w1) as [[b|e] d2 w2 t2]; [|reflexivity].
  destruct (g b d2 w2) as [r d3 w3 t3]. rewrite app_assoc. reflexivity.
Qed.

Lemma bind_returned {A B} (m : M A) (k : A -> M B) d w a :
  result (m d w) = Ret a ->
  bind m k d w =
    after (emitted (m d w)) (k a (self' (m d w)) (world' (m d w))).
Proof.
  unfold bind, after. destruct (m d w) as [r d1 w1 t1]; cbn.
  intros ->. destruct (k a d1 w1); reflexivity.
Qed.

Lemma bind_raised {A B} (m : M A) (k : A -> M B) d w e :
  result (m d w) = Raise e ->
  bind m k d w = mkOut (Raise e) (self' (m d w)) (world' (m d w))
                       (emitted (m d w)).
Proof.
  unfold bind. destruct (m d w) as [r d1 w1 t1]; cbn.
  intros ->. reflexivity.
Qed.

(** Open every method and primitive, then split on what the world
    answers. *)
Ltac open_methods :=
  unfold blank_screen, wake_screen, create_overlay, destroy_overlay, _run,
    get_idle_seconds, bind, ret, raise, try_except, try_finally, attr, store,
    logging, emit, xcall, query_info, create_window, subprocess_run,
    time_time, time_sleep, select_select in *.

Ltac split_world :=
  repeat (match goal with
          | |- context [if x_raises ?w ?n then _ else _] =>
              destruct (x_raises w n) eqn:?
          | |- context [if sh_raises ?w ?n then _ else _] =>
              destruct (sh_raises w n) eqn:?
          end; cbn).

Ltac run_methods := open_methods; cbn; split_world; try discriminate.

(** *** [destroy_overlay] *)

Lemma destroy_overlay_returns d w : result (destroy_overlay d w) = Ret tt.
Proof. destruct d as [t [id|] b la ss xi]; run_methods; reflexivity. Qed.

Lemma destroy_overlay_state d w :
  self' (destroy_overlay d w) = assign (SetOverlay None) d.
Proof. destruct d as [t [id|] b la ss xi]; run_methods; reflexivity. Qed.


Lemma destroy_overlay_trace d w id :
  overlay d = Some id ->
  emitted (destroy_overlay d w) =
    ((if x_raises w (tick w) then
        [EX (UnmapWindow id);
         ELog WARNING (MsgDestroyFailed (XError (UnmapWindow id)))]
      else if x_raises w (S (tick w)) then
        [EX (UnmapWindow id); EX (DestroyWindow id);
         ELog WARNING (MsgDestroyFailed (XError (DestroyWindow id)))]
      else if x_raises w (S (S (tick w))) then
        [EX (UnmapWindow id); EX (DestroyWindow id); EX Sync;
         ELog WARNING (MsgDestroyFailed (XError Sync))]
      else
        [EX (UnmapWindow id); EX (DestroyWindow id); EX Sync;
         ELog INFO (MsgOverlayDestroyed (Some id))])
     ++ [EStore (SetOverlay None)])%list.
Proof.
  destruct d as [t ov b la ss xi]; cbn; intros ->.
  run_methods; reflexivity.
Qed.

(** *** [wake_screen] *)

Lemma wake_screen_returns d w : result (wake_screen d w) = Ret tt.
Proof. destruct d as [t [id|] [|] la ss xi]; run_methods; reflexivity. Qed.

Lemma wake_screen_awake d w :
  blanked d = false -> wake_screen d w = mkOut (Ret tt) d w [].
Proof. destruct d as [t ov b la ss xi]; cbn; intros ->; reflexivity. Qed.

Lemma wake_screen_state d w :
  blanked d = true ->
  let w3 := world' (destroy_overlay d (later 2 w)) in
  self' (wake_screen d w) =
    mkDaemon (timeout d) None false (clock w3 (tick w3))
             (ss_available d) (xi2_raw_enabled d).
Proof.
  destruct d as [t [id|] b la ss xi]; cbn; intros ->;
    run_methods; reflexivity.
Qed.

Lemma wake_screen_trace d w :
  blanked d = true ->
  let o3 := destroy_overlay d (later 2 w) in
  emitted (wake_screen d w) =
    (EShell power_on_cmd ::
     (if sh_raises w (tick w)
      then [ELog WARNING (MsgCommandFailed power_on_cmd (OSError power_on_cmd))]
      else []) ++
     ESleep settle_delay ::
     emitted o3 ++
     [EStore (SetBlanked false);
      EStore (SetLastActivity (clock (world' o3) (tick (world' o3))));
      ELog INFO MsgAwakened])%list.
Proof.
  destruct d as [t [id|] b la ss xi]; cbn; intros ->;
    run_methods; reflexivity.
Qed.

Lemma wake_screen_invariant d w : invariant (self' (wake_screen d w)) \/ blanked d = false.
Proof.
  destruct (blanked d) eqn:Hb; [left|right; reflexivity].
  rewrite (wake_screen_state d w Hb). unfold invariant; cbn.
  split; [intros [x Hx]; discriminate | discriminate].
Qed.


(** *** [create_overlay] and [blank_screen] *)

Lemma create_overlay_existing d w id :
  overlay d = Some id -> create_overlay d w = mkOut (Ret tt) d w [].
Proof. destruct d as [t ov b la ss xi]; cbn; intros ->; reflexivity. Qed.

Lemma destroy_overlay_absent d w :
  overlay d = None -> destroy_overlay d w = mkOut (Ret tt) d w [].
Proof. destruct d as [t ov b la ss xi]; cbn; intros ->; reflexivity. Qed.

(** With no overlay yet, [create_overlay] either raises at the first of
    its three requests that fails, leaving the object as it was, or
    records the new window's id. *)
Lemma create_overlay_fresh d w :
  overlay d = None ->
  let id := new_xid w (tick w) in
  let cw := CreateWindow id 0 true overlay_event_mask in
  create_overlay d w =
    if x_raises w (tick w) then
      mkOut (Raise (XError cw)) d (later 1 w) [EX cw]
    else if x_raises w (S (tick w)) then
      mkOut (Raise (XError (MapWindow id))) d (later 2 w)
            [EX cw; EX (MapWindow id)]
    else if x_raises w (S (S (tick w))) then
      mkOut (Raise (XError Sync)) d (later 3 w)
            [EX cw; EX (MapWindow id); EX Sync]
    else
      mkOut (Ret tt) (assign (SetOverlay (Some id)) d) (later 3 w)
            [EX cw; EX (MapWindow id); EX Sync; EStore (SetOverlay (Some id));
             ELog INFO (MsgOverlayCreated (Some id))].
Proof.
  destruct d as [t ov b la ss xi]; cbn; intros ->.
  run_methods; reflexivity.
Qed.

Lemma blank_screen_blanked d w :
  blanked d = true -> blank_screen d w = mkOut (Ret tt) d w [].
Proof. destruct d as [t ov b la ss xi]; cbn; intros ->; reflexivity. Qed.

(** From an awake state [blank_screen] is [create_overlay] followed, when
    that returns, by the power-off command and the store to [blanked]. *)
Lemma blank_screen_awake d w :
  blanked d = false ->
  let oc := create_overlay d w in
  blank_screen d w =
    match result oc with
    | Raise e => mkOut (Raise e) (self' oc) (world' oc) (emitted oc)
    | Ret _ =>
        mkOut (Ret tt) (assign (SetBlanked true) (self' oc))
              (advance (world' oc))
              (emitted oc ++
               EShell power_off_cmd ::
               (if sh_raises (world' oc) (tick (world' oc))
                then [ELog WARNING
                        (MsgCommandFailed power_off_cmd (OSError power_off_cmd))]
                else []) ++
               [EStore (SetBlanked true); ELog INFO MsgBlanked])
    end.
Proof.
  destruct d as [t [id|] b la ss xi]; cbn; intros ->;
    run_methods; reflexivity.
Qed.

Lemma blank_screen_invariant d w :
  invariant d -> invariant (self' (blank_screen d w)).
Proof.
  intros Hinv. destruct (blanked d) eqn:Hb.
  - rewrite blank_screen_blanked by assumption. exact Hinv.
  - assert (Hov : overlay d = None).
    { destruct (overlay d) as [id|] eqn:Ho; [|reflexivity].
      destruct Hinv as [Hinv _]. rewrite Hinv in Hb; [discriminate|eauto]. }
    rewrite blank_screen_awake by assumption.
    rewrite create_overlay_fresh by assumption.
    destruct (x_raises w (tick w)); [exact Hinv|].
    destruct (x_raises w (S (tick w))); [exact Hinv|].
    destruct (x_raises w (S (S (tick w)))); [exact Hinv|].
    cbn. unfold invariant; cbn. split; eauto.
Qed.

Lemma wake_screen_keeps_invariant d w :
  invariant d -> invariant (self' (wake_screen d w)).
Proof.
  intros Hinv. destruct (wake_screen_invariant d w) as [H|H]; [exact H|].
  rewrite wake_screen_awake by assumption. exact Hinv.
Qed.


(** *** The invariant along every operation *)

Lemma Forall_any (t : list Effect) : Forall any_effect t.
Proof. apply Forall_forall; intros; exact I. Qed.

Ltac invariant_side :=
  try exact I;
  try (intros [? ? ? ? ? ?]; unfold invariant; cbn; tauto).

Lemma keeps_invariant_blank : keeps invariant any_effect blank_screen.
Proof. intros d w H; split; [apply blank_screen_invariant, H | apply Forall_any]. Qed.

Lemma keeps_invariant_wake : keeps invariant any_effect wake_screen.
Proof.
  intros d w H; split; [apply wake_screen_keeps_invariant, H | apply Forall_any].
Qed.

Lemma keeps_invariant_idle : keeps invariant any_effect get_idle_seconds.
Proof. keeps_auto; invariant_side. Qed.

Hint Resolve keeps_invariant_blank keeps_invariant_wake keeps_invariant_idle
  : keeps.

Lemma keeps_invariant_handle swallow ev a :
  keeps invariant any_effect (handle_event swallow ev a).
Proof. keeps_auto; invariant_side. Qed.

Lemma keeps_invariant_process swallow :
  keeps invariant any_effect (process_events swallow).
Proof. apply keeps_process_events, keeps_invariant_handle. Qed.

Hint Resolve keeps_invariant_process : keeps.

Lemma keeps_invariant_op o : keeps invariant any_effect (run_op o).
Proof. destruct o; keeps_auto; invariant_side. Qed.

(** [__init__] leaves an awake daemon without overlay. *)
Lemma init_awake timeout_arg w :
  let d := self' (__init__ timeout_arg uninitialised w) in
  overlay d = None /\ blanked d = false.
Proof.
  assert (K : keeps (fun d => overlay d = None /\ blanked d = false)
                    any_effect (__init__ timeout_arg)).
  { keeps_auto; try exact I; intros [? ? ? ? ? ?]; cbn; tauto. }
  apply (K uninitialised w). cbn; auto.
Qed.


(* ===================================================================== *)
(** ** The claims and their lemmas *)
(* ===================================================================== *)

(** C1 (invariant).  In every reachable state of the daemon -- the state
    that a successful [__init__] leaves, and the state after any sequence
    of [blank_screen], [wake_screen], [process_events], [get_idle_seconds]
    and main-loop iterations, each run in an arbitrary world -- the overlay
    handle is present if and only if [blanked] is true. *)
Theorem overlay_present_iff_blanked
    (timeout_arg : Z) (w0 : World) (script : list (Op * World))
    (Hinit : result (__init__ timeout_arg uninitialised w0) = Ret tt) :
  let d0 := self' (__init__ timeout_arg uninitialised w0) in
  let d := fst (exec script d0) in
  is_Some (overlay d) <-> blanked d = true.
Proof.
  intros d0 d.
  assert (H0 : invariant d0).
  { destruct (init_awake timeout_arg w0) as [Ho Hb]. fold d0 in Ho, Hb.
    unfold invariant. rewrite Ho, Hb. split; [intros [x Hx]|]; discriminate. }
  exact (proj1 (keeps_exec invariant any_effect keeps_invariant_op script d0 H0)).
Qed.


(** *** Running a method twice *)

Lemma bind_idem (m : M unit) :
  (forall d w, result (m d w) = Ret tt ->
     m (self' (m d w)) (world' (m d w)) =
       mkOut (Ret tt) (self' (m d w)) (world' (m d w)) []) ->
  forall d w, bind m (fun _ => m) d w = m d w.
Proof.
  intros H d w. unfold bind. specialize (H d w).
  destruct (m d w) as [[[]|e] d1 w1 t1]; cbn in *; [|reflexivity].
  rewrite H by reflexivity. rewrite app_nil_r. reflexivity.
Qed.

Lemma create_overlay_result d w :
  result (create_overlay d w) = Ret tt ->
  is_Some (overlay (self' (create_overlay d w))).
Proof.
  destruct (overlay d) as [id|] eqn:Ho.
  - rewrite (create_overlay_existing d w id Ho). cbn. rewrite Ho. eauto.
  - rewrite (create_overlay_fresh d w Ho).
    destruct (x_raises w (tick w)); [discriminate|].
    destruct (x_raises w (S (tick w))); [discriminate|].
    destruct (x_raises w (S (S (tick w)))); [discriminate|].
    cbn. eauto.
Qed.

Lemma blank_screen_result d w :
  result (blank_screen d w) = Ret tt ->
  blanked (self' (blank_screen d w)) = true.
Proof.
  destruct (blanked d) eqn:Hb.
  - rewrite (blank_screen_blanked d w Hb). cbn. auto.
  - rewrite (blank_screen_awake d w Hb).
    destruct (result (create_overlay d w)); [reflexivity | discriminate].
Qed.

Lemma blank_screen_at_most_once d w :
  at_most_one_blank (emitted (blank_screen d w)).
Proof.
  destruct d as [t [id|] [|] la ss xi]; unfold at_most_one_blank;
    run_methods; auto.
Qed.

(** C6 (idempotence).  [create_overlay] with an overlay handle already
    present, [destroy_overlay] with none, and [blank_screen] while blanked
    do nothing at all: same object, same world, empty trace.  Hence each
    of the three, run twice in a row, behaves as when run once, and the
    trace of two consecutive blank actions creates the surface and issues
    the power-off command at most once. *)
Theorem overlay_and_blank_idempotent (d : IdleSwallowDaemon) (w : World) :
  (forall id, overlay d = Some id ->
     create_overlay d w = mkOut (Ret tt) d w []) /\
  (overlay d = None -> destroy_overlay d w = mkOut (Ret tt) d w []) /\
  (blanked d = true -> blank_screen d w = mkOut (Ret tt) d w []) /\
  (create_overlay ;; create_overlay) d w = create_overlay d w /\
  (destroy_overlay ;; destroy_overlay) d w = destroy_overlay d w /\
  (blank_screen ;; blank_screen) d w = blank_screen d w /\
  at_most_one_blank (emitted ((blank_screen ;; blank_screen) d w)).
Proof.
  assert (Hb2 : forall d w, (blank_screen ;; blank_screen) d w = blank_screen d w).
  { apply bind_idem. intros d' w' Hr.
    apply blank_screen_blanked, blank_screen_result, Hr. }
  repeat split.
  - intros id Ho. exact (create_overlay_existing d w id Ho).
  - apply destroy_overlay_absent.
  - apply blank_screen_blanked.
  - revert d w. apply bind_idem. intros d w Hr.
    destruct (create_overlay_result d w Hr) as [id Hid].
    exact (create_overlay_existing _ _ id Hid).
  - revert d w. apply bind_idem. intros d w _.
    apply destroy_overlay_absent.
    rewrite destroy_overlay_state. reflexivity.
  - apply Hb2.
  - rewrite Hb2. apply blank_screen_at_most_once.
  - rewrite Hb2. apply blank_screen_at_most_once.
Qed.


(** C7 (wake sequence).  Called while blanked, [wake_screen] returns
    normally and its trace is, in this order: the power-on command (with a
    warning if the command could not be run), the settle delay, the trace
    of [destroy_overlay], the store [blanked = False], the store of the
    clock reading taken after the destruction into [last_activity], and
    the closing log line; the other attributes are untouched.  With an
    overlay present the destruction starts by unmapping it and ends by
    clearing the handle.  Called while awake, [wake_screen] does nothing. *)
Theorem wake_screen_sequence (d : IdleSwallowDaemon) (w : World) :
  (blanked d = false -> wake_screen d w = mkOut (Ret tt) d w []) /\
  (blanked d = true ->
   let o3 := destroy_overlay d (later 2 w) in
   let now := clock (world' o3) (tick (world' o3)) in
   result (wake_screen d w) = Ret tt /\
   emitted (wake_screen d w) =
     (EShell power_on_cmd ::
      (if sh_raises w (tick w)
       then [ELog WARNING (MsgCommandFailed power_on_cmd (OSError power_on_cmd))]
       else []) ++
      ESleep settle_delay ::
      emitted o3 ++
      [EStore (SetBlanked false); EStore (SetLastActivity now);
       ELog INFO MsgAwakened])%list /\
   self' (wake_screen d w) =
     mkDaemon (timeout d) None false now (ss_available d) (xi2_raw_enabled d) /\
   (forall id, overlay d = Some id ->
      exists mid,
        emitted o3 =
          (EX (UnmapWindow id) :: mid ++ [EStore (SetOverlay None)])%list)).
Proof.
  split; [apply wake_screen_awake|].
  intros Hb o3 now. split; [apply wake_screen_returns|].
  split; [apply wake_screen_trace, Hb|].
  split; [apply wake_screen_state, Hb|].
  intros id Ho. unfold o3. rewrite (destroy_overlay_trace d _ id Ho).
  destruct (x_raises _ _); [eexists; reflexivity|].
  destruct (x_raises _ _); [eexists; reflexivity|].
  destruct (x_raises _ _); eexists; reflexivity.
Qed.

(** C8 (errors of the destruction).  [destroy_overlay] always returns
    normally: whichever of the unmap, destroy and sync requests raises,
    the exception is caught, a warning carrying it is logged, the
    remaining requests are skipped, and the last thing done is the store
    [overlay = None]; nothing else of the object changes.  So after
    [wake_screen] on a blanked daemon the handle is absent and [blanked]
    is false, whatever failed. *)
Theorem destroy_overlay_absorbs_errors
    (d : IdleSwallowDaemon) (w : World) (id : Z)
    (Hov : overlay d = Some id) :
  let o := destroy_overlay d w in
  (forall d' w', result (destroy_overlay d' w') = Ret tt) /\
  self' o = assign (SetOverlay None) d /\
  overlay (self' o) = None /\
  emitted o =
    ((if x_raises w (tick w) then
        [EX (UnmapWindow id);
         ELog WARNING (MsgDestroyFailed (XError (UnmapWindow id)))]
      else if x_raises w (S (tick w)) then
        [EX (UnmapWindow id); EX (DestroyWindow id);
         ELog WARNING (MsgDestroyFailed (XError (DestroyWindow id)))]
      else if x_raises w (S (S (tick w))) then
        [EX (UnmapWindow id); EX (DestroyWindow id); EX Sync;
         ELog WARNING (MsgDestroyFailed (XError Sync))]
      else
        [EX (UnmapWindow id); EX (DestroyWindow id); EX Sync;
         ELog INFO (MsgOverlayDestroyed (Some id))])
     ++ [EStore (SetOverlay None)])%list /\
  (blanked d = true ->
   forall w', result (wake_screen d w') = Ret tt /\
              overlay (self' (wake_screen d w')) = None /\
              blanked (self' (wake_screen d w')) = false /\
              invariant (self' (wake_screen d w'))).
Proof.
  intros o. split; [apply destroy_overlay_returns|].
  split; [apply destroy_overlay_state|].
  split; [unfold o; rewrite destroy_overlay_state; reflexivity|].
  split; [apply destroy_overlay_trace, Hov|].
  intros Hb w'. rewrite (wake_screen_state d w' Hb). cbn.
  split; [apply wake_screen_returns|].
  repeat split; try discriminate. intros [x Hx]; discriminate.
Qed.


(** *** [get_idle_seconds] *)

Lemma get_idle_seconds_eq d w :
  get_idle_seconds d w =
    if ss_available d then
      if x_raises w (tick w) then
        mkOut (Ret (py_max 0 (clock w (S (tick w)) - last_activity d))%Q)
              (assign (SetSsAvailable false) d) (later 2 w)
              [EX ScreenSaverQueryInfo; ELog WARNING MsgSsQueryFailed;
               EStore (SetSsAvailable false)]
      else
        mkOut (Ret (inject_Z (ss_idle w (tick w)) / 1000)%Q) d (later 1 w)
              [EX ScreenSaverQueryInfo]
    else
      mkOut (Ret (py_max 0 (clock w (tick w) - last_activity d))%Q) d
            (later 1 w) [].
Proof.
  destruct d as [t ov b la [|] xi]; run_methods; reflexivity.
Qed.

Lemma get_idle_seconds_returns d w :
  exists v, result (get_idle_seconds d w) = Ret v.
Proof.
  rewrite get_idle_seconds_eq.
  destruct (ss_available d); [destruct (x_raises w (tick w))|]; eauto.
Qed.

(** *** Flags that only [__init__] can raise *)

Ltac flag_side :=
  try (intros [? ? ? ? ? ?]; cbn; congruence);
  try (cbn; congruence);
  try (intros; cbn; congruence).

(** Once the platform query is off, no operation turns it on again, and no
    operation ever stores [True] into [ss_available]. *)
Lemma keeps_fallback_op o :
  keeps (fun d => ss_available d = false)
        (fun e => reenables_query e = false) (run_op o).
Proof. destruct o; keeps_auto; flag_side. Qed.

Lemma keeps_never_reenables_op o :
  keeps (fun _ => True) (fun e => reenables_query e = false) (run_op o).
Proof. destruct o; keeps_auto; flag_side; auto. Qed.

(** No operation touches the raw-input subscription or its flag. *)
Lemma keeps_subscription_op b o :
  keeps (fun d => xi2_raw_enabled d = b)
        (fun e => touches_subscription e = false) (run_op o).
Proof. destruct o; keeps_auto; flag_side. Qed.


(** *** [__init__] *)

Ltac split_xinput :=
  repeat (match goal with
          | |- context [match xinput ?n with _ => _ end] =>
              destruct (xinput n) eqn:?
          | |- context [if x_raises ?w ?n then _ else _] =>
              destruct (x_raises w n) eqn:?
          end; cbn).

(** The subscription is attempted only behind [if not self.ss_available]:
    when [__init__] leaves [ss_available] true, it has sent no XI2 request
    and [xi2_raw_enabled] is false. *)
Lemma init_subscription timeout_arg w :
  let o := __init__ timeout_arg uninitialised w in
  ss_available (self' o) = true ->
  xi2_raw_enabled (self' o) = false /\
  Forall (fun e => xi2_request e = false) (emitted o).
Proof.
  unfold __init__, enable_xi2, getattr_xinput. open_methods. cbn.
  split_xinput; intros H; try discriminate; split; try reflexivity;
    repeat constructor.
Qed.

Lemma init_enabled_implies_fallback timeout_arg w :
  let o := __init__ timeout_arg uninitialised w in
  xi2_raw_enabled (self' o) = true -> ss_available (self' o) = false.
Proof.
  intros o H. destruct (ss_available (self' o)) eqn:Hs; [|reflexivity].
  destruct (init_subscription timeout_arg w Hs) as [Hx _].
  fold o in Hx. congruence.
Qed.


(** C5 (fallback monotonicity).  When the platform idle query raises
    inside [get_idle_seconds], that call already answers with the fallback
    value [max(0, now - last_activity)] and leaves [ss_available] false;
    after any further sequence of operations, in any worlds,
    [ss_available] is still false and [get_idle_seconds] sends no query and
    answers with the fallback value.  More generally no operation, from any
    state, stores [True] into [ss_available], and a false flag stays
    false. *)
Theorem idle_fallback_is_permanent
    (d : IdleSwallowDaemon) (w : World)
    (Hss : ss_available d = true)
    (Hfail : x_raises w (tick w) = true) :
  let o := get_idle_seconds d w in
  result o = Ret (py_max 0 (clock w (S (tick w)) - last_activity d))%Q /\
  ss_available (self' o) = false /\
  (forall script w',
     let d' := fst (exec script (self' o)) in
     ss_available d' = false /\
     get_idle_seconds d' w' =
       mkOut (Ret (py_max 0 (clock w' (tick w') - last_activity d'))%Q)
             d' (later 1 w') []) /\
  (forall d0 script,
     Forall (fun e => reenables_query e = false) (snd (exec script d0))) /\
  (forall d0 script,
     ss_available d0 = false -> ss_available (fst (exec script d0)) = false).
Proof.
  intros o.
  assert (Hmono : forall d0 script,
             ss_available d0 = false ->
             ss_available (fst (exec script d0)) = false).
  { intros d0 script H0.
    exact (proj1 (keeps_exec _ _ keeps_fallback_op script d0 H0)). }
  assert (Ho : ss_available (self' o) = false).
  { unfold o. rewrite get_idle_seconds_eq, Hss, Hfail. reflexivity. }
  split; [unfold o; rewrite get_idle_seconds_eq, Hss, Hfail; reflexivity|].
  split; [exact Ho|].
  split; [|split; [|exact Hmono]].
  - intros script w' d'.
    assert (Hd' : ss_available d' = false) by (apply Hmono, Ho).
    split; [exact Hd'|].
    rewrite get_idle_seconds_eq, Hd'. reflexivity.
  - intros d0 script.
    exact (proj2 (keeps_exec _ _ keeps_never_reenables_op script d0 I)).
Qed.

(** C10 (raw-input subscription).  [__init__] raises [xi2_raw_enabled]
    only when it has found the platform query unavailable; no later
    operation, from any state, sends an XI2 request or stores to
    [xi2_raw_enabled].  So when the platform query works at startup, no
    XI2 request is sent by [__init__], and however the daemon runs
    afterwards -- including a later failure of the query inside
    [get_idle_seconds] -- the subscription is never made and
    [xi2_raw_enabled] stays false. *)
Theorem raw_subscription_only_at_startup
    (timeout_arg : Z) (w0 : World) (script : list (Op * World)) :
  let o0 := __init__ timeout_arg uninitialised w0 in
  let d0 := self' o0 in
  (xi2_raw_enabled d0 = true -> ss_available d0 = false) /\
  (forall d,
     xi2_raw_enabled (fst (exec script d)) = xi2_raw_enabled d /\
     Forall (fun e => touches_subscription e = false) (snd (exec script d))) /\
  (ss_available d0 = true ->
     xi2_raw_enabled d0 = false /\
     Forall (fun e => xi2_request e = false) (emitted o0) /\
     xi2_raw_enabled (fst (exec script d0)) = false).
Proof.
  intros o0 d0.
  assert (Hops : forall d,
             xi2_raw_enabled (fst (exec script d)) = xi2_raw_enabled d /\
             Forall (fun e => touches_subscription e = false)
                    (snd (exec script d))).
  { intros d.
    exact (keeps_exec _ _ (keeps_subscription_op (xi2_raw_enabled d))
                      script d eq_refl). }
  split; [apply init_enabled_implies_fallback|].
  split; [exact Hops|].
  intros Hs. destruct (init_subscription timeout_arg w0 Hs) as [Hx Ht].
  split; [exact Hx|]. split; [exact Ht|].
  rewrite (proj1 (Hops d0)). exact Hx.
Qed.


(** *** Observations on traces *)

Lemma waits_app t1 t2 : waits (t1 ++ t2) = (waits t1 ++ waits t2)%list.
Proof. apply omap_app. Qed.

Lemma waits_none t : Forall (fun e => is_wait e = false) t -> waits t = [].
Proof.
  induction 1 as [|e t He _ IH]; [reflexivity|].
  unfold waits in *; cbn. destruct e; try discriminate; exact IH.
Qed.

Lemma ordinary_no_wait t : Forall ordinary t -> waits t = [].
Proof.
  intros H. apply waits_none. eapply Forall_impl; [exact H|].
  intros e [_ He]; exact He.
Qed.

(** *** Processing events while awake *)

Ltac ordinary_side :=
  try (intros [? ? ? ? ? ?]; cbn; congruence);
  try (split; reflexivity).

Lemma keeps_awake_wake :
  keeps (fun d => blanked d = false) ordinary wake_screen.
Proof.
  intros d w H. rewrite (wake_screen_awake d w H). cbn. auto.
Qed.

Hint Resolve keeps_awake_wake : keeps.

Lemma keeps_awake_handle swallow ev a :
  keeps (fun d => blanked d = false) ordinary (handle_event swallow ev a).
Proof. keeps_auto; ordinary_side. Qed.

Lemma keeps_awake_process swallow :
  keeps (fun d => blanked d = false) ordinary (process_events swallow).
Proof. apply keeps_process_events, keeps_awake_handle. Qed.

(** No method other than the loop body waits on the descriptor. *)
Lemma keeps_no_wait_process swallow :
  keeps (fun _ => True) (fun e => is_wait e = false) (process_events swallow).
Proof. keeps_auto; auto. Qed.

Lemma keeps_no_wait_blank :
  keeps (fun _ => True) (fun e => is_wait e = false) blank_screen.
Proof. keeps_auto; auto. Qed.

Lemma keeps_no_wait_idle :
  keeps (fun _ => True) (fun e => is_wait e = false) get_idle_seconds.
Proof. keeps_auto; auto. Qed.


Lemma blank_screen_succeeds d w :
  blanked d = false -> creation_succeeds w = true ->
  result (blank_screen d w) = Ret tt.
Proof.
  unfold creation_succeeds.
  destruct d as [t [id|] b la ss xi]; cbn; intros -> Hc;
    run_methods; try reflexivity; cbn in Hc; discriminate.
Qed.



(** *** The loop body *)

Lemma wait_and_dispatch_trace tmo d w :
  exists rest,
    emitted (wait_and_dispatch tmo d w) = ESelect tmo :: rest /\
    waits rest = [] /\
    (blanked d = false ->
     blanked (self' (wait_and_dispatch tmo d w)) = false /\
     Forall ordinary rest).
Proof.
  unfold wait_and_dispatch, bind, select_select, ret. cbn -[process_events].
  destruct (fd_ready w (tick w)); cbn -[process_events].
  - destruct (keeps_no_wait_process true d (advance w) I) as [_ Hw].
    pose proof (keeps_awake_process true d (advance w)) as Ha.
    destruct (process_events true d (advance w)) as [[a|e] d2 w2 t2];
      cbn in *.
    + exists t2. rewrite app_nil_r. split; [reflexivity|].
      split; [apply waits_none, Hw|]. exact Ha.
    + exists t2. split; [reflexivity|].
      split; [apply waits_none, Hw|]. exact Ha.
  - exists []. repeat split; auto.
Qed.


Lemma get_idle_seconds_frame d w :
  let d' := self' (get_idle_seconds d w) in
  timeout d' = timeout d /\ overlay d' = overlay d /\
  blanked d' = blanked d /\ last_activity d' = last_activity d /\
  xi2_raw_enabled d' = xi2_raw_enabled d.
Proof.
  rewrite get_idle_seconds_eq.
  destruct (ss_available d); [destruct (x_raises w (tick w))|];
    cbn; repeat split; reflexivity.
Qed.




(** *** One event *)

Lemma log_event_eq evtype_attr kind action d w :
  log_event evtype_attr kind action d w =
    mkOut (Ret tt) d w (event_log evtype_attr kind action d).
Proof.
  unfold log_event, event_log. destruct KIOSK_IDLE_DEBUG; reflexivity.
Qed.

Lemma log_event_out evtype_attr kind action d w :
  log_event evtype_attr kind action d w =
    mkOut (Ret tt) d w (event_log evtype_attr kind action d).
Proof. apply log_event_eq. Qed.

Lemma event_log_ordinary evtype_attr kind action d :
  Forall ordinary (event_log evtype_attr kind action d).
Proof.
  unfold event_log. destruct KIOSK_IDLE_DEBUG; repeat constructor.
Qed.

Lemma note_activity_eq evtype_attr kind d w :
  note_activity evtype_attr kind d w =
    if ss_available d then
      mkOut (Ret tt) d w (event_log evtype_attr kind "seen-no-update" d)
    else
      let now := clock w (tick w) in
      let d' := assign (SetLastActivity now) d in
      mkOut (Ret tt) d' (advance w)
            (EStore (SetLastActivity now) ::
             event_log evtype_attr kind "activity-update" d').
Proof.
  unfold note_activity. rewrite bind_attr.
  destruct (ss_available d); cbn [negb].
  - apply log_event_out.
  - unfold bind, time_time, store. cbn. rewrite log_event_out. reflexivity.
Qed.

(** The swallow branch: the debug line, then [wake_screen]. *)
Lemma wake_branch_eq evtype_attr kind d w :
  (log_event evtype_attr kind "wake+swallow" ;; wake_screen) d w =
    after (event_log evtype_attr kind "wake+swallow" d) (wake_screen d w).
Proof.
  rewrite (bind_returned _ _ d w tt) by (rewrite log_event_out; reflexivity).
  rewrite log_event_out. reflexivity.
Qed.

(** [handle_event] with the attribute reads resolved. *)
Lemma handle_event_eq swallow ev a d w :
  handle_event swallow ev a d w =
    match core_names !! ev_type ev with
    | Some name =>
        ((if blanked d && swallow then
            log_event (ev_evtype ev) name "wake+swallow" ;; wake_screen
          else note_activity (ev_evtype ev) name) ;;
         ret true) d w
    | None =>
        match ev_evtype ev with
        | Some c =>
            if xi2_raw_enabled d then
              ((if blanked d && swallow &&
                   str_in (raw_name_of c) wake_raw_names
                then
                  log_event (Some c) (raw_name_of c) "wake+swallow" ;;
                  wake_screen
                else note_activity (Some c) (raw_name_of c)) ;;
               ret true) d w
            else mkOut (Ret a) d w []
        | None => mkOut (Ret a) d w []
        end
    end.
Proof.
  unfold handle_event.
  destruct (core_names !! ev_type ev) as [name|].
  - rewrite bind_attr. reflexivity.
  - rewrite bind_attr. destruct (ev_evtype ev) as [c|]; [|reflexivity].
    destruct (xi2_raw_enabled d); [|reflexivity].
    rewrite bind_attr. reflexivity.
Qed.


Lemma bind_then_ret {A B} (m : M A) (b : B) d w a :
  result (m d w) = Ret a ->
  (m ;; ret b) d w = returning b (m d w).
Proof.
  intros H. rewrite (bind_returned _ _ _ _ _ H).
  unfold after, returning, ret; cbn. rewrite app_nil_r. reflexivity.
Qed.

Lemma note_activity_returns evtype_attr kind d w :
  result (note_activity evtype_attr kind d w) = Ret tt.
Proof. rewrite note_activity_eq. destruct (ss_available d); reflexivity. Qed.

Lemma wake_branch_returns evtype_attr kind d w :
  result ((log_event evtype_attr kind "wake+swallow" ;; wake_screen) d w) =
    Ret tt.
Proof. rewrite wake_branch_eq. apply wake_screen_returns. Qed.

(** The outcome of [handle_event], case by case. *)
Lemma handle_event_out swallow ev a d w :
  handle_event swallow ev a d w =
    match core_names !! ev_type ev with
    | Some name =>
        if blanked d && swallow then
          returning true
            (after (event_log (ev_evtype ev) name "wake+swallow" d)
                   (wake_screen d w))
        else returning true (note_activity (ev_evtype ev) name d w)
    | None =>
        match ev_evtype ev with
        | Some c =>
            if xi2_raw_enabled d then
              if blanked d && swallow && str_in (raw_name_of c) wake_raw_names
              then
                returning true
                  (after (event_log (Some c) (raw_name_of c) "wake+swallow" d)
                         (wake_screen d w))
              else returning true (note_activity (Some c) (raw_name_of c) d w)
            else mkOut (Ret a) d w []
        | None => mkOut (Ret a) d w []
        end
    end.
Proof.
  rewrite handle_event_eq.
  destruct (core_names !! ev_type ev) as [name|].
  - destruct (blanked d && swallow).
    + rewrite (bind_then_ret _ _ _ _ tt) by apply wake_branch_returns.
      rewrite wake_branch_eq. reflexivity.
    + apply (bind_then_ret _ _ _ _ tt), note_activity_returns.
  - destruct (ev_evtype ev) as [c|]; [|reflexivity].
    destruct (xi2_raw_enabled d); [|reflexivity].
    destruct (blanked d && swallow && str_in (raw_name_of c) wake_raw_names).
    + rewrite (bind_then_ret _ _ _ _ tt) by apply wake_branch_returns.
      rewrite wake_branch_eq. reflexivity.
    + apply (bind_then_ret _ _ _ _ tt), note_activity_returns.
Qed.

Lemma wake_screen_queue d w : queue (world' (wake_screen d w)) = queue w.
Proof. destruct d as [t [id|] [|] la ss xi]; run_methods; reflexivity. Qed.

Lemma handle_event_queue swallow ev a d w :
  queue (world' (handle_event swallow ev a d w)) = queue w.
Proof.
  rewrite handle_event_out.
  repeat match goal with
         | |- context [match ?x with _ => _ end] => destruct x
         end;
    cbn [returning after world'];
    try apply wake_screen_queue; try reflexivity;
    rewrite note_activity_eq; destruct (ss_available d); reflexivity.
Qed.

Lemma handle_event_returns swallow ev a d w :
  exists a', result (handle_event swallow ev a d w) = Ret a'.
Proof.
  rewrite handle_event_out.
  repeat match goal with
         | |- context [match ?x with _ => _ end] => destruct x
         end; cbn; eauto.
Qed.


(** *** Counting wake actions *)

Lemma wake_count_app t1 t2 :
  wake_count (t1 ++ t2) = (wake_count t1 + wake_count t2)%nat.
Proof.
  unfold wake_count, shell_cmds.
  rewrite omap_app, filter_app, length_app. reflexivity.
Qed.

Lemma wake_count_ordinary t : Forall ordinary t -> wake_count t = O.
Proof.
  induction 1 as [|e t [He _] _ IH]; [reflexivity|].
  change (e :: t) with ([e] ++ t)%list. rewrite wake_count_app, IH.
  destruct e; try discriminate; reflexivity.
Qed.

Lemma wake_count_wake d w :
  blanked d = true -> wake_count (emitted (wake_screen d w)) = 1%nat.
Proof.
  destruct d as [t [id|] b la ss xi]; cbn; intros ->;
    run_methods; reflexivity.
Qed.

(** *** One event, seen while blanked or while awake *)

Lemma handle_event_wakes ev a d w :
  blanked d = true -> qualifies (xi2_raw_enabled d) ev = true ->
  exists log,
    Forall ordinary log /\
    handle_event true ev a d w =
      returning true (after log (wake_screen d w)).
Proof.
  intros Hb Hq. rewrite handle_event_out. unfold qualifies in Hq.
  rewrite Hb. cbn [andb].
  destruct (core_names !! ev_type ev) as [name|].
  - eexists; split; [apply event_log_ordinary|reflexivity].
  - destruct (ev_evtype ev) as [c|]; [|discriminate].
    apply andb_prop in Hq as [-> ->].
    eexists; split; [apply event_log_ordinary|reflexivity].
Qed.

Lemma note_activity_frame evtype_attr kind d w :
  let o := note_activity evtype_attr kind d w in
  blanked (self' o) = blanked d /\ overlay (self' o) = overlay d /\
  xi2_raw_enabled (self' o) = xi2_raw_enabled d /\
  ss_available (self' o) = ss_available d /\
  Forall ordinary (emitted o).
Proof.
  cbv zeta. rewrite note_activity_eq. destruct (ss_available d) eqn:Hs; cbn.
  - repeat split; auto. apply event_log_ordinary.
  - repeat split; auto. constructor; [split; reflexivity|].
    apply event_log_ordinary.
Qed.

Lemma handle_event_sleeps_on ev a d w :
  blanked d = true -> qualifies (xi2_raw_enabled d) ev = false ->
  let o := handle_event true ev a d w in
  blanked (self' o) = true /\ overlay (self' o) = overlay d /\
  xi2_raw_enabled (self' o) = xi2_raw_enabled d /\
  Forall ordinary (emitted o).
Proof.
  intros Hb Hq. cbv zeta. rewrite handle_event_out. unfold qualifies in Hq.
  rewrite Hb. cbn [andb].
  destruct (core_names !! ev_type ev) as [name|]; [discriminate|].
  destruct (ev_evtype ev) as [c|]; [|cbn; auto].
  destruct (xi2_raw_enabled d) eqn:Hx; [|cbn; auto].
  cbn [andb] in Hq. rewrite Hq.
  destruct (note_activity_frame (Some c) (raw_name_of c) d w)
    as (H1 & H2 & H3 & _ & H5).
  cbn [returning self' emitted]. rewrite H1, H2, H3. auto.
Qed.

(** *** The loop, event by event *)

Lemma process_loop_nil n swallow a d w :
  queue w = [] -> process_loop (S n) swallow a d w = mkOut (Ret a) d w [].
Proof.
  intros Hq. cbn [process_loop]. unfold bind, poll_event. rewrite Hq.
  reflexivity.
Qed.

Lemma process_loop_cons n swallow a d w ev q :
  queue w = ev :: q ->
  process_loop (S n) swallow a d w =
    bind (handle_event swallow ev a) (process_loop n swallow)
         d (with_queue q w).
Proof.
  intros Hq. cbn [process_loop]. unfold bind at 1. unfold poll_event.
  rewrite Hq. unfold bind.
  destruct (handle_event swallow ev a d (with_queue q w)) as [[a'|e] d1 w1 t1];
    [|reflexivity].
  destruct (process_loop n swallow a' d1 w1); reflexivity.
Qed.


Lemma handle_event_awake swallow ev a d w :
  blanked d = false ->
  let o := handle_event swallow ev a d w in
  handle_event swallow ev a d w =
    match core_names !! ev_type ev, ev_evtype ev with
    | Some name, _ => returning true (note_activity (ev_evtype ev) name d w)
    | None, Some c =>
        if xi2_raw_enabled d
        then returning true (note_activity (Some c) (raw_name_of c) d w)
        else mkOut (Ret a) d w []
    | None, None => mkOut (Ret a) d w []
    end /\
  result o = Ret (if observed_as_input (xi2_raw_enabled d) ev then true else a) /\
  blanked (self' o) = false /\ overlay (self' o) = overlay d /\
  Forall ordinary (emitted o).
Proof.
  intros Hb. cbv zeta. rewrite handle_event_out. unfold observed_as_input.
  rewrite Hb. cbn [andb].
  destruct (core_names !! ev_type ev) as [name|].
  - destruct (note_activity_frame (ev_evtype ev) name d w)
      as (H1 & H2 & _ & _ & H5).
    cbn [returning result self' emitted]. rewrite H1, H2. auto.
  - destruct (ev_evtype ev) as [c|]; [|cbn; auto].
    destruct (xi2_raw_enabled d); [|cbn; auto].
    destruct (note_activity_frame (Some c) (raw_name_of c) d w)
      as (H1 & H2 & _ & _ & H5).
    cbn [returning result self' emitted]. rewrite H1, H2. auto.
Qed.

(** Draining a queue while awake: nothing but ordinary activity. *)
Lemma process_loop_awake swallow q :
  forall n a d w,
    blanked d = false -> queue w = q -> (length q < n)%nat ->
    let o := process_loop n swallow a d w in
    (exists a', result o = Ret a' /\ (a = true -> a' = true)) /\
    blanked (self' o) = false /\ overlay (self' o) = overlay d /\
    Forall ordinary (emitted o) /\ queue (world' o) = [].
Proof.
  induction q as [|ev q IH]; intros n a d w Hb Hq Hn; cbv zeta.
  - destruct n as [|n]; [cbn in Hn; lia|].
    rewrite (process_loop_nil n swallow a d w Hq). cbn. eauto 10.
  - destruct n as [|n]; [cbn in Hn; lia|].
    rewrite (process_loop_cons n swallow a d w ev q Hq).
    destruct (handle_event_awake swallow ev a d (with_queue q w) Hb)
      as (_ & Hr & Hb1 & Ho1 & Ht1).
    pose proof (handle_event_queue swallow ev a d (with_queue q w)) as Hq1.
    rewrite (bind_returned _ _ _ _ _ Hr).
    set (o1 := handle_event swallow ev a d (with_queue q w)) in *.
    cbn in Hn.
    destruct (IH n (if observed_as_input (xi2_raw_enabled d) ev then true else a)
                 (self' o1) (world' o1) Hb1 Hq1 ltac:(lia))
      as ((a' & Ha' & Hmono) & Hb2 & Ho2 & Ht2 & Hq2).
    unfold after; cbn [result self' world' emitted].
    split; [exists a'; split; [exact Ha'|]|].
    { intros ->. apply Hmono.
      destruct (observed_as_input _ _); reflexivity. }
    split; [exact Hb2|]. split; [congruence|].
    split; [apply Forall_app; auto|exact Hq2].
Qed.

(** Draining a queue while blanked, up to and beyond the first qualifying
    event. *)
Lemma process_loop_first_wake pre :
  forall n a d w ev post,
    blanked d = true -> queue w = (pre ++ ev :: post)%list ->
    (length (queue w) < n)%nat ->
    forallb (fun e => negb (qualifies (xi2_raw_enabled d) e)) pre = true ->
    qualifies (xi2_raw_enabled d) ev = true ->
    let o := process_loop n true a d w in
    exists d1 w1 t_pre t_post,
      (pre = [] -> d1 = d /\ w1 = with_queue post w) /\
      blanked d1 = true /\ overlay d1 = overlay d /\
      Forall ordinary t_pre /\ Forall ordinary t_post /\
      emitted o = (t_pre ++ emitted (wake_screen d1 w1) ++ t_post)%list /\
      result o = Ret true /\
      blanked (self' o) = false /\ overlay (self' o) = None /\
      queue (world' o) = [].
Proof.
  induction pre as [|e pre IH]; intros n a d w ev post Hb Hq Hn Hpre Hev;
    cbv zeta.
  - cbn in Hq. rewrite Hq in Hn. cbn in Hn.
    destruct n as [|n]; [lia|].
    rewrite (process_loop_cons n true a d w ev post Hq).
    destruct (handle_event_wakes ev a d (with_queue post w) Hb Hev)
      as (log & Hlog & He).
    pose proof (handle_event_queue true ev a d (with_queue post w)) as Hq1.
    rewrite He in Hq1. cbn [returning after world'] in Hq1.
    rewrite (bind_returned _ _ _ _ true) by (rewrite He; reflexivity).
    rewrite He. cbn [returning after self' world' emitted].
    set (ow := wake_screen d (with_queue post w)) in *.
    pose proof (wake_screen_state d (with_queue post w) Hb) as Hs.
    fold ow in Hs. cbv zeta in Hs.
    assert (Hb1 : blanked (self' ow) = false) by (rewrite Hs; reflexivity).
    assert (Ho1 : overlay (self' ow) = None) by (rewrite Hs; reflexivity).
    destruct (process_loop_awake true post n true (self' ow) (world' ow)
                Hb1 Hq1 ltac:(lia))
      as ((a' & Ha' & Hmono) & Hb2 & Ho2 & Ht2 & Hq2).
    exists d, (with_queue post w), log, (emitted (process_loop n true true (self' ow) (world' ow))).
    unfold after; cbn [result self' world' emitted]. fold ow.
    rewrite <- app_assoc.
    repeat split; auto.
    + rewrite Ha', Hmono; reflexivity.
    + congruence.
  - cbn in Hq. rewrite Hq in Hn. cbn in Hn.
    destruct n as [|n]; [lia|].
    cbn [forallb] in Hpre. apply andb_prop in Hpre as [He Hpre].
    apply negb_true_iff in He.
    rewrite (process_loop_cons n true a d w e _ Hq).
    set (w0 := with_queue (pre ++ ev :: post) w).
    destruct (handle_event_sleeps_on e a d w0 Hb He) as (Hb1 & Ho1 & Hx1 & Ht1).
    destruct (handle_event_returns true e a d w0) as [a1 Hr].
    pose proof (handle_event_queue true e a d w0) as Hq1.
    rewrite (bind_returned _ _ _ _ _ Hr).
    set (o1 := handle_event true e a d w0) in *.
    assert (Hn1 : (length (queue (world' o1)) < n)%nat).
    { rewrite Hq1. unfold w0; cbn. lia. }
    rewrite <- Hx1 in Hpre, Hev.
    destruct (IH n a1 (self' o1) (world' o1) ev post Hb1 Hq1 Hn1 Hpre Hev)
      as (d1 & w1 & t_pre & t_post & _ & H1 & H2 & H3 & H4 & H5 & H6 & H7 & H8 & H9).
    exists d1, w1, (emitted o1 ++ t_pre)%list, t_post.
    unfold after; cbn [result self' world' emitted].
    rewrite H5, <- app_assoc.
    repeat split; auto.
    + discriminate.
    + discriminate.
    + congruence.
    + apply Forall_app; auto.
Qed.


(** [process_events] always returns, with the queue drained: the fuel it
    gives to the loop is never used up. *)
Lemma process_loop_drains swallow q :
  forall n a d w,
    queue w = q -> (length q < n)%nat ->
    let o := process_loop n swallow a d w in
    (exists a', result o = Ret a') /\ queue (world' o) = [].
Proof.
  induction q as [|ev q IH]; intros n a d w Hq Hn; cbv zeta.
  - destruct n as [|n]; [cbn in Hn; lia|].
    rewrite (process_loop_nil n swallow a d w Hq). cbn. eauto.
  - destruct n as [|n]; [cbn in Hn; lia|].
    rewrite (process_loop_cons n swallow a d w ev q Hq).
    destruct (handle_event_returns swallow ev a d (with_queue q w)) as [a1 Hr].
    pose proof (handle_event_queue swallow ev a d (with_queue q w)) as Hq1.
    rewrite (bind_returned _ _ _ _ _ Hr). cbn in Hn.
    set (o1 := handle_event swallow ev a d (with_queue q w)) in *.
    destruct (IH n a1 (self' o1) (world' o1) Hq1 ltac:(lia))
      as ([a' Ha'] & Hq2).
    unfold after; cbn [result world']. eauto.
Qed.

Lemma process_events_drains swallow d w :
  let o := process_events swallow d w in
  (exists a, result o = Ret a) /\ queue (world' o) = [].
Proof.
  unfold process_events.
  apply (process_loop_drains swallow (queue w)); [reflexivity | lia].
Qed.

(** The invariant along any number of passes of [run]. *)
Lemma keeps_invariant_run n : keeps invariant any_effect (run n).
Proof.
  unfold run. apply keeps_bind; [apply keeps_attr|]. intros t.
  apply keeps_bind; [apply keeps_logging; exact I|]. intros _.
  induction n as [|n IH]; cbn [run_loop]; [apply keeps_ret|].
  apply keeps_bind; [apply (keeps_invariant_op OpIterate)|].
  intros _. exact IH.
Qed.

(** *** The names of raw events *)

Lemma raw_map_sound (names : list string) (c : Z) (name : string) :
  fold_left
    (fun (m : gmap Z string) (n : string) =>
       match xinput n with
       | Some c' => <[c' := n]> m
       | None => m
       end) names ∅ !! c = Some name ->
  In name names /\ xinput name = Some c.
Proof.
  induction names as [|x l IH] using rev_ind.
  - cbn. rewrite lookup_empty. discriminate.
  - rewrite fold_left_app. cbn. intros H.
    destruct (xinput x) as [c'|] eqn:Hx.
    + destruct (decide (c' = c)) as [->|Hne].
      * rewrite lookup_insert_eq in H. injection H as <-.
        split; [apply in_or_app; right; left; reflexivity | exact Hx].
      * rewrite lookup_insert_ne in H by exact Hne.
        destruct (IH H) as [Hin Hc]. split; [apply in_or_app; auto | exact Hc].
    + destruct (IH H) as [Hin Hc]. split; [apply in_or_app; auto | exact Hc].
Qed.

Lemma raw_map_complete (names : list string) (c : Z) (name : string) :
  In name names -> xinput name = Some c ->
  is_Some
    (fold_left
       (fun (m : gmap Z string) (n : string) =>
          match xinput n with
          | Some c' => <[c' := n]> m
          | None => m
          end) names ∅ !! c).
Proof.
  induction names as [|x l IH] using rev_ind; [intros []|].
  intros Hin Hc. rewrite fold_left_app. cbn.
  apply in_app_or in Hin.
  destruct (xinput x) as [c'|] eqn:Hx.
  - destruct (decide (c' = c)) as [->|Hne].
    + rewrite lookup_insert_eq. eauto.
    + rewrite lookup_insert_ne by exact Hne.
      destruct Hin as [Hin|[->|[]]]; [apply IH; assumption|congruence].
  - destruct Hin as [Hin|[->|[]]]; [apply IH; assumption|congruence].
Qed.

(** With distinct codes, an event whose [evtype] is the code of a raw name
    is given that name. *)
Lemma raw_name_of_code (name : string) (c : Z) :
  distinct_codes -> In name raw_names -> xinput name = Some c ->
  raw_name_of c = name.
Proof.
  intros Hd Hin Hc. unfold raw_name_of, raw_map.
  destruct (raw_map_complete raw_names c name Hin Hc) as [name' Hl].
  rewrite Hl. destruct (raw_map_sound raw_names c name' Hl) as [Hin' Hc'].
  exact (Hd name' name c Hin' Hin Hc' Hc).
Qed.

(** A code that no raw name has is reported as [RawUnknown(...)], which is
    not one of the waking names. *)
Lemma raw_name_unknown (c : Z) :
  raw_map !! c = None ->
  str_in (raw_name_of c) wake_raw_names = false.
Proof. intros H. unfold raw_name_of. rewrite H. reflexivity. Qed.


Lemma core_names_lookup (t : Z) :
  In t [KeyPress X; KeyRelease X; ButtonPress X; ButtonRelease X;
        MotionNotify X] ->
  is_Some (core_names !! t).
Proof.
  intros Hin. unfold core_names. rewrite !lookup_insert.
  repeat case_decide; eauto.
  cbn in Hin. intuition congruence.
Qed.

(** C2 (wake triggers).  Take an event handled while [blanked] is true,
    with swallowing on as in the main loop.
    - The event makes [process_events] call [wake_screen] -- the daemon
      ends awake, after exactly one wake action -- exactly when it
      [qualifies]; otherwise the daemon stays blanked, the overlay stays,
      and nothing of a wake action is emitted.
    - Every core KeyPress, KeyRelease, ButtonPress, ButtonRelease and
      MotionNotify event qualifies.
    - On the raw path (a non-core event that carries the code of a raw
      name, the codes being distinct): with the raw subscription enabled
      the event qualifies exactly when its name is RawButtonPress,
      RawTouchBegin or RawKeyPress; RawMotion, RawKeyRelease,
      RawButtonRelease, RawTouchUpdate and RawTouchEnd never qualify, and
      neither does a code that has no name. *)
Theorem wake_triggers
    (d : IdleSwallowDaemon) (w : World) (ev : XEvent) (a : bool)
    (Hb : blanked d = true) :
  let o := handle_event true ev a d w in
  let xi2 := xi2_raw_enabled d in
  (qualifies xi2 ev = true ->
     blanked (self' o) = false /\ overlay (self' o) = None /\
     wake_count (emitted o) = 1%nat /\
     exists log, Forall ordinary log /\
                 o = returning true (after log (wake_screen d w))) /\
  (qualifies xi2 ev = false ->
     blanked (self' o) = true /\ overlay (self' o) = overlay d /\
     wake_count (emitted o) = 0%nat /\ Forall ordinary (emitted o)) /\
  (In (ev_type ev)
      [KeyPress X; KeyRelease X; ButtonPress X; ButtonRelease X;
       MotionNotify X] ->
   qualifies xi2 ev = true) /\
  (forall c, core_names !! ev_type ev = None -> ev_evtype ev = Some c ->
     (raw_map !! c = None -> qualifies xi2 ev = false) /\
     (forall name,
        distinct_codes -> In name raw_names -> xinput name = Some c ->
        (xi2 = true -> qualifies xi2 ev = str_in name wake_raw_names) /\
        (In name ["RawButtonPress"; "RawTouchBegin"; "RawKeyPress"] ->
         xi2 = true -> qualifies xi2 ev = true) /\
        (In name ["RawMotion"; "RawKeyRelease"; "RawButtonRelease";
                  "RawTouchUpdate"; "RawTouchEnd"] ->
         qualifies xi2 ev = false))).
Proof.
  intros o xi2. split; [|split; [|split]].
  - intros Hq.
    destruct (handle_event_wakes ev a d w Hb Hq) as (log & Hlog & He).
    fold o in He. rewrite He. cbn [returning after self' emitted].
    rewrite (wake_screen_state d w Hb). cbn [blanked overlay].
    split; [reflexivity|]. split; [reflexivity|].
    split; [|exists log; auto].
    rewrite wake_count_app, (wake_count_ordinary _ Hlog).
    apply wake_count_wake, Hb.
  - intros Hq.
    destruct (handle_event_sleeps_on ev a d w Hb Hq) as (H1 & H2 & _ & H4).
    fold o in H1, H2, H4. repeat split; auto.
    apply wake_count_ordinary, H4.
  - intros Hin. unfold qualifies.
    destruct (core_names_lookup _ Hin) as [name ->]. reflexivity.
  - intros c Hcore Hc. unfold qualifies. rewrite Hcore, Hc. split.
    + intros Hnone. rewrite (raw_name_unknown c Hnone). apply andb_false_r.
    + intros name Hd Hin Hx.
      rewrite (raw_name_of_code name c Hd Hin Hx).
      split; [intros ->; reflexivity|]. split.
      * intros Hw ->. cbn in Hw.
        destruct Hw as [<-|[<-|[<-|[]]]]; reflexivity.
      * intros Hw. cbn in Hw.
        destruct Hw as [<-|[<-|[<-|[<-|[<-|[]]]]]]; apply andb_false_r.
Qed.


(** *** Draining a batch, spelled out *)

Lemma after_nil {A} (o : Out A) : after [] o = o.
Proof. destruct o; reflexivity. Qed.

Lemma after_after {A} (t1 t2 : list Effect) (o : Out A) :
  after t1 (after t2 o) = after (t1 ++ t2) o.
Proof. unfold after; cbn. rewrite app_assoc. reflexivity. Qed.

(** An event that does not wake is handled as ordinary activity. *)
Lemma handle_event_ordinary ev a d w :
  blanked d = false \/ qualifies (xi2_raw_enabled d) ev = false ->
  handle_event true ev a d w =
    if observed_as_input (xi2_raw_enabled d) ev then
      if ss_available d then
        mkOut (Ret true) d w
              (event_log (ev_evtype ev) (event_kind ev) "seen-no-update" d)
      else
        let now := clock w (tick w) in
        let d1 := assign (SetLastActivity now) d in
        mkOut (Ret true) d1 (advance w)
              (EStore (SetLastActivity now) ::
               event_log (ev_evtype ev) (event_kind ev) "activity-update" d1)
    else mkOut (Ret a) d w [].
Proof.
  intros Hpath. rewrite handle_event_out.
  unfold observed_as_input, event_kind, qualifies in *.
  destruct (core_names !! ev_type ev) as [name|].
  - assert (Hb : blanked d = false) by (destruct Hpath; [assumption|discriminate]).
    rewrite Hb. cbn [andb]. rewrite note_activity_eq.
    destruct (ss_available d); reflexivity.
  - destruct (ev_evtype ev) as [c|]; [|reflexivity].
    destruct (xi2_raw_enabled d); [|reflexivity].
    assert (Hc : blanked d && true && str_in (raw_name_of c) wake_raw_names
                 = false).
    { destruct Hpath as [-> | Hq]; [reflexivity|].
      cbn [andb] in Hq. rewrite Hq. apply andb_false_r. }
    rewrite Hc, note_activity_eq. destruct (ss_available d); reflexivity.
Qed.

(** The event that wakes: its debug line, then [wake_screen]. *)
Lemma handle_event_trigger ev a d w :
  blanked d = true -> qualifies (xi2_raw_enabled d) ev = true ->
  handle_event true ev a d w =
    returning true
      (after (event_log (ev_evtype ev) (event_kind ev) "wake+swallow" d)
             (wake_screen d w)).
Proof.
  intros Hb Hq. rewrite handle_event_out.
  unfold event_kind, qualifies in *. rewrite Hb. cbn [andb].
  destruct (core_names !! ev_type ev) as [name|]; [reflexivity|].
  destruct (ev_evtype ev) as [c|]; [|discriminate].
  apply andb_prop in Hq as [-> ->]. reflexivity.
Qed.

Lemma ordinary_activity_frame evs :
  forall a d w,
    let o := ordinary_activity evs a d w in
    result o =
      Ret (a || existsb (observed_as_input (xi2_raw_enabled d)) evs) /\
    blanked (self' o) = blanked d /\ overlay (self' o) = overlay d /\
    xi2_raw_enabled (self' o) = xi2_raw_enabled d /\
    ss_available (self' o) = ss_available d /\
    Forall ordinary (emitted o) /\
    (forall rest, queue w = (evs ++ rest)%list -> queue (world' o) = rest).
Proof.
  induction evs as [|ev evs IH]; intros a d w; cbv zeta.
  - cbn. rewrite orb_false_r. repeat split; auto.
  - cbn [ordinary_activity existsb].
    destruct (observed_as_input (xi2_raw_enabled d) ev) eqn:Hobs.
    + destruct (ss_available d) eqn:Hss.
      * destruct (IH true d (with_queue (tl (queue w)) w))
          as (H1 & H2 & H3 & H4 & H5 & H6 & H7).
        unfold after; cbn [result self' world' emitted].
        rewrite H1, orb_true_r. cbn [orb].
        repeat split; auto; try congruence.
        -- apply Forall_app; split; [apply event_log_ordinary | exact H6].
        -- intros rest Hq. apply H7. rewrite Hq. reflexivity.
      * set (w0 := with_queue (tl (queue w)) w).
        destruct (IH true (assign (SetLastActivity (clock w0 (tick w0))) d)
                     (advance w0))
          as (H1 & H2 & H3 & H4 & H5 & H6 & H7).
        unfold after; cbn [result self' world' emitted].
        rewrite H1. cbn [orb]. rewrite orb_true_r.
        split; [reflexivity|]. split; [exact H2|]. split; [exact H3|].
        split; [exact H4|]. split; [rewrite H5; exact Hss|]. split.
        -- constructor; [split; reflexivity|].
           apply Forall_app; split; [apply event_log_ordinary | exact H6].
        -- intros rest Hq. apply H7. unfold w0; cbn. rewrite Hq. reflexivity.
    + destruct (IH a d (with_queue (tl (queue w)) w))
        as (H1 & H2 & H3 & H4 & H5 & H6 & H7).
      rewrite H1. cbn [orb]. repeat split; auto.
      intros rest Hq. apply H7. rewrite Hq. reflexivity.
Qed.

(** As long as no event wakes, the loop does what [ordinary_activity]
    says. *)
Lemma process_loop_ordinary evs :
  forall n a d w rest,
    queue w = (evs ++ rest)%list ->
    blanked d = false \/
    forallb (fun e => negb (qualifies (xi2_raw_enabled d) e)) evs = true ->
    let oa := ordinary_activity evs a d w in
    process_loop (length evs + n) true a d w =
      after (emitted oa)
        (process_loop n true
           (a || existsb (observed_as_input (xi2_raw_enabled d)) evs)
           (self' oa) (world' oa)).
Proof.
  induction evs as [|ev evs IH]; intros n a d w rest Hq Hpath; cbv zeta.
  - cbn [ordinary_activity length existsb emitted self' world' Nat.add].
    rewrite orb_false_r, after_nil. reflexivity.
  - cbn [length Nat.add].
    rewrite (process_loop_cons _ true a d w ev (evs ++ rest) Hq).
    cbn [ordinary_activity existsb]. rewrite Hq. cbn [tl].
    set (w0 := with_queue (evs ++ rest) w).
    assert (Hev : blanked d = false \/
                  qualifies (xi2_raw_enabled d) ev = false).
    { destruct Hpath as [Hb|Hall]; [left; exact Hb|right].
      cbn [forallb] in Hall. apply andb_prop in Hall as [He _].
      apply negb_true_iff, He. }
    pose proof (handle_event_ordinary ev a d w0 Hev) as Hh.
    destruct (observed_as_input (xi2_raw_enabled d) ev) eqn:Hobs.
    + destruct (ss_available d) eqn:Hss.
      * rewrite (bind_returned _ _ _ _ true) by (rewrite Hh; reflexivity).
        rewrite Hh. cbn [self' world' emitted].
        rewrite (IH n true d w0 rest eq_refl).
        2:{ destruct Hpath as [Hb|Hall]; [left; exact Hb|right].
            cbn [forallb] in Hall. apply andb_prop in Hall as [_ Hall].
            exact Hall. }
        rewrite after_after. rewrite orb_true_r. reflexivity.
      * rewrite (bind_returned _ _ _ _ true) by (rewrite Hh; reflexivity).
        rewrite Hh. cbv zeta. cbn [self' world' emitted].
        set (d1 := assign (SetLastActivity (clock w0 (tick w0))) d).
        rewrite (IH n true d1 (advance w0) rest eq_refl).
        2:{ destruct Hpath as [Hb|Hall]; [left; exact Hb|right].
            cbn [forallb] in Hall. apply andb_prop in Hall as [_ Hall].
            exact Hall. }
        rewrite after_after. rewrite orb_true_r. reflexivity.
    + rewrite (bind_returned _ _ _ _ a) by (rewrite Hh; reflexivity).
      rewrite Hh. cbn [self' world' emitted].
      rewrite (IH n a d w0 rest eq_refl).
      2:{ destruct Hpath as [Hb|Hall]; [left; exact Hb|right].
          cbn [forallb] in Hall. apply andb_prop in Hall as [_ Hall].
          exact Hall. }
      unfold after at 1. cbn [app orb].
      apply out_eta.
Qed.

(** A batch drained while blanked, from its first event to its last: the
    events before the first qualifying one are ordinary activity, that one
    wakes, and the events after it are ordinary activity again. *)
Lemma process_events_first_wake_eq d w pre ev post :
  blanked d = true ->
  queue w = (pre ++ ev :: post)%list ->
  forallb (fun e => negb (qualifies (xi2_raw_enabled d) e)) pre = true ->
  qualifies (xi2_raw_enabled d) ev = true ->
  let o_pre := ordinary_activity pre false d w in
  let d1 := self' o_pre in
  let w1 := with_queue post (world' o_pre) in
  let o_wake := wake_screen d1 w1 in
  let o_post := ordinary_activity post true (self' o_wake) (world' o_wake) in
  process_events true d w =
    mkOut (Ret true) (self' o_post) (world' o_post)
          (emitted o_pre ++
           event_log (ev_evtype ev) (event_kind ev) "wake+swallow" d1 ++
           emitted o_wake ++ emitted o_post).
Proof.
  intros Hb Hq Hpre Hev o_pre d1 w1 o_wake o_post.
  destruct (ordinary_activity_frame pre false d w)
    as (_ & Hb1 & _ & Hx1 & _ & _ & Hq1).
  fold o_pre in Hb1, Hx1, Hq1. fold d1 in Hb1, Hx1.
  specialize (Hq1 (ev :: post) Hq). rewrite Hb in Hb1.
  unfold process_events. rewrite Hq, length_app. cbn [length].
  replace (S (length pre + S (length post)))
    with (length pre + S (S (length post)))%nat by lia.
  rewrite (process_loop_ordinary pre _ false d w (ev :: post) Hq)
    by (right; exact Hpre).
  fold o_pre. fold d1.
  rewrite (process_loop_cons _ true _ d1 (world' o_pre) ev post Hq1).
  fold w1.
  assert (Hev1 : qualifies (xi2_raw_enabled d1) ev = true)
    by (rewrite Hx1; exact Hev).
  pose proof (handle_event_trigger ev
                (false || existsb (observed_as_input (xi2_raw_enabled d)) pre)
                d1 w1 Hb1 Hev1) as Hh.
  rewrite (bind_returned _ _ _ _ true) by (rewrite Hh; reflexivity).
  rewrite Hh. cbn [returning after self' world' emitted]. fold o_wake.
  pose proof (wake_screen_state d1 w1 Hb1) as Hs. fold o_wake in Hs.
  cbv zeta in Hs.
  assert (Hb2 : blanked (self' o_wake) = false) by (rewrite Hs; reflexivity).
  pose proof (wake_screen_queue d1 w1) as Hq2. fold o_wake in Hq2.
  assert (Hq2' : queue (world' o_wake) = (post ++ [])%list)
    by (rewrite Hq2, app_nil_r; reflexivity).
  replace (S (length post)) with (length post + 1)%nat by lia.
  rewrite (process_loop_ordinary post 1 true (self' o_wake) (world' o_wake)
             [] Hq2' (or_introl Hb2)).
  fold o_post.
  destruct (ordinary_activity_frame post true (self' o_wake) (world' o_wake))
    as (_ & _ & _ & _ & _ & _ & Hq3).
  fold o_post in Hq3. specialize (Hq3 [] Hq2').
  rewrite (process_loop_nil 0 true _ (self' o_post) (world' o_post) Hq3).
  unfold after; cbn [result self' world' emitted orb].
  rewrite app_nil_r, <- !app_assoc. reflexivity.
Qed.

(** C4 (one wake per drained batch).  Let a batch be drained while
    [blanked] is true, and let [ev] be its first qualifying event.  Then
    [process_events] is, as a whole: [ordinary_activity] on the events
    before [ev] (which leaves the daemon blanked with its overlay); the
    debug line of [ev] and one [wake_screen], run on the daemon as it is
    at that moment with exactly the events after [ev] still queued; and
    [ordinary_activity] on the events after [ev], run on the daemon that
    the wake leaves, awake and without overlay -- each of them, qualifying
    or not, only logged and, on the fallback path, stored as the new
    [last_activity].  It returns [True] with the queue empty and the
    daemon awake without overlay, and its trace holds exactly one wake
    action.  In particular, with the raw subscription enabled and distinct
    codes, the batch [RawTouchBegin, RawMotion, RawButtonPress] gives the
    debug line and the wake of RawTouchBegin, on the daemon as it was, and
    then the activity entries of RawMotion and of RawButtonPress: on the
    fallback path two stores to [last_activity], the second with the clock
    reading taken for RawButtonPress; RawButtonPress, which would qualify
    by itself, wakes nothing. *)
Theorem only_first_qualifying_event_wakes :
  (forall (d : IdleSwallowDaemon) (w : World) (pre post : list XEvent)
          (ev : XEvent),
     blanked d = true ->
     queue w = (pre ++ ev :: post)%list ->
     forallb (fun e => negb (qualifies (xi2_raw_enabled d) e)) pre = true ->
     qualifies (xi2_raw_enabled d) ev = true ->
     let o := process_events true d w in
     let o_pre := ordinary_activity pre false d w in
     let d1 := self' o_pre in
     let w1 := with_queue post (world' o_pre) in
     let o_wake := wake_screen d1 w1 in
     let o_post :=
       ordinary_activity post true (self' o_wake) (world' o_wake) in
     o = mkOut (Ret true) (self' o_post) (world' o_post)
               (emitted o_pre ++
                event_log (ev_evtype ev) (event_kind ev) "wake+swallow" d1 ++
                emitted o_wake ++ emitted o_post) /\
     blanked d1 = true /\ overlay d1 = overlay d /\
     blanked (self' o_wake) = false /\ overlay (self' o_wake) = None /\
     Forall ordinary (emitted o_pre) /\ Forall ordinary (emitted o_post) /\
     result o = Ret true /\ queue (world' o) = [] /\
     blanked (self' o) = false /\ overlay (self' o) = None /\
     wake_count (emitted o) = 1%nat) /\
  (forall (d : IdleSwallowDaemon) (w : World) (e1 e2 e3 : XEvent)
          (c1 c2 c3 : Z),
     distinct_codes ->
     xinput "RawTouchBegin" = Some c1 ->
     xinput "RawMotion" = Some c2 ->
     xinput "RawButtonPress" = Some c3 ->
     core_names !! ev_type e1 = None -> ev_evtype e1 = Some c1 ->
     core_names !! ev_type e2 = None -> ev_evtype e2 = Some c2 ->
     core_names !! ev_type e3 = None -> ev_evtype e3 = Some c3 ->
     blanked d = true -> xi2_raw_enabled d = true ->
     queue w = [e1; e2; e3] ->
     let o := process_events true d w in
     let o_wake := wake_screen d (with_queue [e2; e3] w) in
     let d2 := self' o_wake in
     let w2 := world' o_wake in
     let t2 := clock w2 (tick w2) in
     let t3 := clock w2 (S (tick w2)) in
     qualifies true e1 = true /\ qualifies true e2 = false /\
     qualifies true e3 = true /\
     result o = Ret true /\ blanked (self' o) = false /\
     wake_count (emitted o) = 1%nat /\
     emitted o =
       (event_log (Some c1) "RawTouchBegin" "wake+swallow" d ++
        emitted o_wake ++
        if ss_available d then
          event_log (Some c2) "RawMotion" "seen-no-update" d2 ++
          event_log (Some c3) "RawButtonPress" "seen-no-update" d2
        else
          EStore (SetLastActivity t2) ::
          event_log (Some c2) "RawMotion" "activity-update" d2 ++
          EStore (SetLastActivity t3) ::
          event_log (Some c3) "RawButtonPress" "activity-update" d2)%list /\
     self' o =
       (if ss_available d then d2 else assign (SetLastActivity t3) d2)).
Proof.
  assert (General :
    forall d w pre post ev,
      blanked d = true ->
      queue w = (pre ++ ev :: post)%list ->
      forallb (fun e => negb (qualifies (xi2_raw_enabled d) e)) pre = true ->
      qualifies (xi2_raw_enabled d) ev = true ->
      let o := process_events true d w in
      let o_pre := ordinary_activity pre false d w in
      let d1 := self' o_pre in
      let w1 := with_queue post (world' o_pre) in
      let o_wake := wake_screen d1 w1 in
      let o_post :=
        ordinary_activity post true (self' o_wake) (world' o_wake) in
      o = mkOut (Ret true) (self' o_post) (world' o_post)
                (emitted o_pre ++
                 event_log (ev_evtype ev) (event_kind ev) "wake+swallow" d1 ++
                 emitted o_wake ++ emitted o_post) /\
      blanked d1 = true /\ overlay d1 = overlay d /\
      blanked (self' o_wake) = false /\ overlay (self' o_wake) = None /\
      Forall ordinary (emitted o_pre) /\ Forall ordinary (emitted o_post) /\
      result o = Ret true /\ queue (world' o) = [] /\
      blanked (self' o) = false /\ overlay (self' o) = None /\
      wake_count (emitted o) = 1%nat).
  { intros d w pre post ev Hb Hq Hpre Hev o o_pre d1 w1 o_wake o_post.
    pose proof (process_events_first_wake_eq d w pre ev post Hb Hq Hpre Hev)
      as Heq.
    cbv zeta in Heq. fold o o_pre in Heq. fold d1 in Heq. fold w1 in Heq.
    fold o_wake in Heq. fold o_post in Heq.
    destruct (ordinary_activity_frame pre false d w)
      as (_ & Hb1 & Ho1 & _ & _ & Ht1 & _).
    fold o_pre in Hb1, Ho1, Ht1. fold d1 in Hb1, Ho1. rewrite Hb in Hb1.
    pose proof (wake_screen_state d1 w1 Hb1) as Hs. fold o_wake in Hs.
    cbv zeta in Hs.
    pose proof (wake_screen_queue d1 w1) as Hq2. fold o_wake in Hq2.
    destruct (ordinary_activity_frame post true (self' o_wake) (world' o_wake))
      as (_ & Hb3 & Ho3 & _ & _ & Ht3 & Hq3).
    fold o_post in Hb3, Ho3, Ht3, Hq3.
    split; [exact Heq|]. split; [exact Hb1|]. split; [exact Ho1|].
    split; [rewrite Hs; reflexivity|]. split; [rewrite Hs; reflexivity|].
    split; [exact Ht1|]. split; [exact Ht3|].
    rewrite Heq. cbn [result self' world' emitted].
    split; [reflexivity|]. split.
    { apply Hq3. rewrite Hq2, app_nil_r. reflexivity. }
    split; [rewrite Hb3, Hs; reflexivity|].
    split; [rewrite Ho3, Hs; reflexivity|].
    pose proof (wake_count_wake d1 w1 Hb1) as Hw1. fold o_wake in Hw1.
    rewrite !wake_count_app, (wake_count_ordinary _ Ht1),
      (wake_count_ordinary _ (event_log_ordinary _ _ _ _)),
      (wake_count_ordinary _ Ht3), Hw1.
    reflexivity. }
  split; [exact General|].
  intros d w e1 e2 e3 c1 c2 c3 Hd Hx1 Hx2 Hx3 Ht1 Hc1 Ht2 Hc2 Ht3 Hc3
         Hb Hxi Hq o o_wake d2 w2 t2 t3.
  assert (Hn1 : raw_name_of c1 = "RawTouchBegin")
    by (apply (raw_name_of_code _ c1 Hd); [cbn; auto 10 | exact Hx1]).
  assert (Hn2 : raw_name_of c2 = "RawMotion")
    by (apply (raw_name_of_code _ c2 Hd); [cbn; auto 10 | exact Hx2]).
  assert (Hn3 : raw_name_of c3 = "RawButtonPress")
    by (apply (raw_name_of_code _ c3 Hd); [cbn; auto 10 | exact Hx3]).
  assert (Hq1 : qualifies true e1 = true)
    by (unfold qualifies; rewrite Ht1, Hc1, Hn1; reflexivity).
  assert (Hq2 : qualifies true e2 = false)
    by (unfold qualifies; rewrite Ht2, Hc2, Hn2; reflexivity).
  assert (Hq3 : qualifies true e3 = true)
    by (unfold qualifies; rewrite Ht3, Hc3, Hn3; reflexivity).
  assert (Hq1' : qualifies (xi2_raw_enabled d) e1 = true)
    by (rewrite Hxi; exact Hq1).
  destruct (General d w [] [e2; e3] e1 Hb Hq eq_refl Hq1')
    as (Heq & _ & _ & _ & _ & _ & _ & Hr & _ & Hbl & _ & Hwc).
  cbn [ordinary_activity self' world' emitted app] in Heq.
  fold o in Heq, Hr, Hbl, Hwc. fold o_wake in Heq. fold d2 w2 in Heq.
  pose proof (wake_screen_state d (with_queue [e2; e3] w) Hb) as Hs.
  fold o_wake in Hs. fold d2 in Hs. cbv zeta in Hs.
  assert (Hx2' : xi2_raw_enabled d2 = true) by (rewrite Hs; exact Hxi).
  assert (Hss : ss_available d2 = ss_available d) by (rewrite Hs; reflexivity).
  assert (Hk1 : event_kind e1 = "RawTouchBegin")
    by (unfold event_kind; rewrite Ht1, Hc1; exact Hn1).
  assert (Hk2 : event_kind e2 = "RawMotion")
    by (unfold event_kind; rewrite Ht2, Hc2; exact Hn2).
  assert (Hk3 : event_kind e3 = "RawButtonPress")
    by (unfold event_kind; rewrite Ht3, Hc3; exact Hn3).
  assert (Ho2 : observed_as_input true e2 = true)
    by (unfold observed_as_input; rewrite Ht2, Hc2; reflexivity).
  assert (Ho3 : observed_as_input true e3 = true)
    by (unfold observed_as_input; rewrite Ht3, Hc3; reflexivity).
  split; [exact Hq1|]. split; [exact Hq2|]. split; [exact Hq3|].
  split; [exact Hr|]. split; [exact Hbl|]. split; [exact Hwc|].
  rewrite Heq. cbn [self' emitted].
  rewrite Hk1, Hc1.
  unfold ordinary_activity.
  rewrite Hx2', Ho2, Hss.
  destruct (ss_available d) eqn:Hsd.
  - rewrite ?Hx2', ?Ho3, ?Hss, ?Hsd.
    unfold after; cbn [self' emitted]. rewrite Hk2, Hk3, Hc2, Hc3.
    rewrite app_nil_r. split; reflexivity.
  - cbv zeta. cbn [assign xi2_raw_enabled ss_available].
    rewrite ?Hx2', ?Ho3, ?Hss, ?Hsd.
    unfold after; cbn [self' emitted]. rewrite Hk2, Hk3, Hc2, Hc3.
    rewrite app_nil_r.
    unfold event_log, assign.
    cbn [timeout overlay blanked last_activity ss_available xi2_raw_enabled].
    rewrite ?Hx2', ?Hss, ?Hsd. split; reflexivity.
Qed.


(** C9, amended (activity while awake).  Take an event handled while the
    daemon is awake and on the fallback idle path.  If the event is a core
    KeyPress, KeyRelease, ButtonPress, ButtonRelease or MotionNotify, or
    if it carries an XI2 [evtype] and the raw subscription is enabled, it
    is counted as activity: [last_activity] becomes the clock reading of
    that moment, nothing else of the object changes, and nothing of a
    blank or wake action is emitted.  Any other event -- such as a
    structure notification, which the root event mask selects, or a raw
    event while the subscription flag is off -- is drained without any
    effect: same object, same world, empty trace, [activity] as it was. *)
Theorem input_events_feed_fallback_clock
    (d : IdleSwallowDaemon) (w : World) (ev : XEvent) (swallow a : bool)
    (Hb : blanked d = false) (Hss : ss_available d = false) :
  let o := handle_event swallow ev a d w in
  let xi2 := xi2_raw_enabled d in
  (In (ev_type ev)
      [KeyPress X; KeyRelease X; ButtonPress X; ButtonRelease X;
       MotionNotify X] ->
   observed_as_input xi2 ev = true) /\
  (forall c, ev_evtype ev = Some c -> xi2 = true ->
             observed_as_input xi2 ev = true) /\
  (core_names !! ev_type ev = None ->
   ev_evtype ev = None \/ xi2 = false ->
   observed_as_input xi2 ev = false) /\
  (observed_as_input xi2 ev = true ->
     result o = Ret true /\
     self' o = assign (SetLastActivity (clock w (tick w))) d /\
     last_activity (self' o) = clock w (tick w) /\
     Forall ordinary (emitted o)) /\
  (observed_as_input xi2 ev = false -> o = mkOut (Ret a) d w []) /\
  (queue w = [ev] ->
   let p := process_events swallow d w in
   if observed_as_input xi2 ev then
     result p = Ret true /\ last_activity (self' p) = clock w (tick w)
   else
     result p = Ret false /\ self' p = d /\ emitted p = []).
Proof.
  intros o xi2.
  assert (Hyes : forall a' w',
            observed_as_input xi2 ev = true ->
            let o' := handle_event swallow ev a' d w' in
            result o' = Ret true /\
            self' o' = assign (SetLastActivity (clock w' (tick w'))) d /\
            world' o' = advance w' /\
            Forall ordinary (emitted o')).
  { intros a' w' Hobs.
    destruct (handle_event_awake swallow ev a' d w' Hb) as (He & Hr & _ & _ & Ht).
    cbv zeta. split; [rewrite Hr; fold xi2; rewrite Hobs; reflexivity|].
    split; [|split; [|exact Ht]].
    - rewrite He. unfold observed_as_input in Hobs.
      destruct (core_names !! ev_type ev); [|destruct (ev_evtype ev)];
        try discriminate; try (fold xi2; rewrite Hobs);
        cbn [returning self']; rewrite note_activity_eq, Hss; reflexivity.
    - rewrite He. unfold observed_as_input in Hobs.
      destruct (core_names !! ev_type ev); [|destruct (ev_evtype ev)];
        try discriminate; try (fold xi2; rewrite Hobs);
        cbn [returning world']; rewrite note_activity_eq, Hss; reflexivity. }
  assert (Hno : forall a' w',
            observed_as_input xi2 ev = false ->
            handle_event swallow ev a' d w' = mkOut (Ret a') d w' []).
  { intros a' w' Hobs.
    destruct (handle_event_awake swallow ev a' d w' Hb) as (He & _).
    rewrite He. unfold observed_as_input in Hobs.
    destruct (core_names !! ev_type ev); [discriminate|].
    destruct (ev_evtype ev); [|reflexivity].
    fold xi2. rewrite Hobs. reflexivity. }
  split; [|split; [|split; [|split; [|split]]]].
  - intros Hin. unfold observed_as_input.
    destruct (core_names_lookup _ Hin) as [name ->]. reflexivity.
  - intros c Hc Hx. unfold observed_as_input. rewrite Hc, Hx.
    destruct (core_names !! ev_type ev); reflexivity.
  - intros Hcore Hor. unfold observed_as_input. rewrite Hcore.
    destruct Hor as [-> | ->]; [reflexivity|].
    destruct (ev_evtype ev); reflexivity.
  - intros Hobs. destruct (Hyes a w Hobs) as (H1 & H2 & _ & H4).
    fold o in H1, H2, H4. rewrite H2. auto.
  - intros Hobs. apply Hno, Hobs.
  - intros Hq p. unfold p, process_events. rewrite Hq. cbn [length].
    rewrite (process_loop_cons 1 swallow false d w ev [] Hq).
    destruct (observed_as_input xi2 ev) eqn:Hobs.
    + destruct (Hyes false (with_queue [] w) eq_refl) as (H1 & H2 & H3 & _).
      rewrite (bind_returned _ _ _ _ _ H1).
      rewrite process_loop_nil by (rewrite H3; reflexivity).
      cbn [after result self']. rewrite H2. auto.
    + pose proof (Hno false (with_queue [] w) eq_refl) as H1.
      rewrite (bind_returned _ _ _ _ false) by (rewrite H1; reflexivity).
      rewrite H1. cbn [self' world' emitted].
      rewrite process_loop_nil by reflexivity. cbn. auto.
Qed.


(* ===================================================================== *)
(** ** Further properties of the methods *)
(* ===================================================================== *)

(** *** Power commands *)

Lemma run_command_eq cmd d w :
  _run cmd d w =
    mkOut (Ret tt) d (advance w)
          (EShell cmd ::
           if sh_raises w (tick w)
           then [ELog WARNING (MsgCommandFailed cmd (OSError cmd))]
           else []).
Proof. run_methods; reflexivity. Qed.

(** X1 (power commands are fire-and-forget).  [_run] never raises, does
    not touch the object, and issues its command exactly once, with a
    warning when the command could not be run.  A failing power command
    therefore never holds up a transition: [blank_screen] on an awake
    daemon whose overlay creation succeeds ends blanked, and
    [wake_screen] on a blanked daemon ends awake, whether or not the
    command ran. *)
Theorem power_command_failure_is_absorbed
    (cmd : string) (d : IdleSwallowDaemon) (w : World) :
  result (_run cmd d w) = Ret tt /\
  self' (_run cmd d w) = d /\
  shell_cmds (emitted (_run cmd d w)) = [cmd] /\
  (sh_raises w (tick w) = true ->
   emitted (_run cmd d w) =
     [EShell cmd; ELog WARNING (MsgCommandFailed cmd (OSError cmd))]) /\
  (blanked d = false -> creation_succeeds w = true ->
   result (blank_screen d w) = Ret tt /\
   blanked (self' (blank_screen d w)) = true /\
   shell_cmds (emitted (blank_screen d w)) = [power_off_cmd]) /\
  (blanked d = true ->
   result (wake_screen d w) = Ret tt /\
   blanked (self' (wake_screen d w)) = false /\
   shell_cmds (emitted (wake_screen d w)) = [power_on_cmd]).
Proof.
  rewrite run_command_eq. cbn [result self' emitted].
  split; [reflexivity|]. split; [reflexivity|].
  split; [destruct (sh_raises w (tick w)); reflexivity|].
  split; [intros ->; reflexivity|]. split.
  - intros Hb Hc.
    pose proof (blank_screen_succeeds d w Hb Hc) as Hr.
    split; [exact Hr|]. split; [apply blank_screen_result, Hr|].
    unfold creation_succeeds in Hc.
    destruct d as [t [id|] b la ss xi]; cbn in Hb; subst b;
      run_methods; try reflexivity; cbn in Hc; discriminate.
  - intros Hb. split; [apply wake_screen_returns|].
    split; [rewrite (wake_screen_state d w Hb); reflexivity|].
    destruct d as [t [id|] b la ss xi]; cbn in Hb; subst b;
      run_methods; reflexivity.
Qed.

(** *** A failed blank *)

(** The requests of an overlay creation. *)
Definition creation_request (r : XReq) : bool :=
  match r with
  | CreateWindow _ _ _ _ | MapWindow _ | Sync => true
  | _ => false
  end.

(** X2 (a blank that fails leaves no trace on the object).  If
    [blank_screen] raises, the daemon was awake without overlay, the
    exception is the X error of one of the three requests of the overlay
    creation (so not all of them succeed), the object is exactly as
    before -- no handle recorded, [blanked] still false -- and no power
    command was issued. *)
Theorem failed_blank_changes_nothing
    (d : IdleSwallowDaemon) (w : World) (e : Exn)
    (Hraise : result (blank_screen d w) = Raise e) :
  blanked d = false /\ overlay d = None /\
  creation_succeeds w = false /\
  (exists r, e = XError r /\ creation_request r = true /\
             last (x_requests (emitted (blank_screen d w))) = Some r) /\
  self' (blank_screen d w) = d /\
  shell_cmds (emitted (blank_screen d w)) = [].
Proof.
  unfold creation_succeeds.
  destruct d as [t [id|] [|] la ss xi]; revert Hraise;
    run_methods; intros Hraise; try discriminate;
    injection Hraise as <-; repeat split; eauto.
Qed.


(** *** Blank, then wake *)

(** X3 (blank/wake round trip).  Blank an awake daemon without overlay
    and, once that has returned, wake it in any later world.  The window
    that is unmapped and destroyed is the one that was created, and the
    daemon is back as it was before the blank, except that
    [last_activity] is the clock reading taken at the end of the wake. *)
Theorem blank_then_wake_restores
    (d : IdleSwallowDaemon) (w w' : World)
    (Hb : blanked d = false) (Ho : overlay d = None)
    (Hret : result (blank_screen d w) = Ret tt) :
  let id := new_xid w (tick w) in
  let d1 := self' (blank_screen d w) in
  let o2 := wake_screen d1 w' in
  d1 = mkDaemon (timeout d) (Some id) true (last_activity d)
                (ss_available d) (xi2_raw_enabled d) /\
  hd_error (x_requests (emitted (blank_screen d w))) =
    Some (CreateWindow id 0 true overlay_event_mask) /\
  hd_error (x_requests (emitted o2)) = Some (UnmapWindow id) /\
  result o2 = Ret tt /\
  exists now, self' o2 = assign (SetLastActivity now) d /\
              now = clock (world' o2) (pred (tick (world' o2))).
Proof.
  destruct d as [t ov b la ss xi]; cbn in Hb, Ho; subst b ov.
  revert Hret. run_methods; intros Hret; try discriminate;
    (repeat split; try reflexivity; eexists; split; reflexivity).
Qed.

(** *** The idle time *)

Lemma py_max_nonneg (x : Q) : (0 <= py_max 0 x)%Q.
Proof.
  unfold py_max. destruct (Qle_bool x 0) eqn:H; [apply Qle_refl|].
  destruct (Qlt_le_dec 0 x) as [Hlt|Hle]; [apply Qlt_le_weak, Hlt|].
  apply Qle_bool_iff in Hle. congruence.
Qed.

Lemma millis_nonneg (ms : Z) : 0 <= ms -> (0 <= inject_Z ms / 1000)%Q.
Proof.
  intros H. apply Qle_shift_div_l; [reflexivity|].
  rewrite Qmult_0_l. change 0%Q with (inject_Z 0). rewrite <- Zle_Qle. exact H.
Qed.

(** X4 (the idle time is never negative).  Provided the platform reports
    a non-negative idle time, [get_idle_seconds] returns a value [>= 0]
    in every state and world; it never raises and changes nothing of the
    object but [ss_available].  On the fallback path this holds even when
    the clock reads earlier than [last_activity]: the answer is then
    exactly 0. *)
Theorem idle_seconds_nonnegative
    (d : IdleSwallowDaemon) (w : World)
    (Hidle : 0 <= ss_idle w (tick w)) :
  let o := get_idle_seconds d w in
  (exists v, result o = Ret v /\ (0 <= v)%Q) /\
  (self' o = d \/ self' o = assign (SetSsAvailable false) d) /\
  (ss_available d = false ->
   (clock w (tick w) <= last_activity d)%Q -> result o = Ret 0%Q).
Proof.
  cbv zeta. rewrite get_idle_seconds_eq.
  destruct (ss_available d) eqn:Hs; [destruct (x_raises w (tick w))|];
    cbn [result self'].
  - split; [eexists; split; [reflexivity|apply py_max_nonneg]|].
    split; [auto|discriminate].
  - split; [eexists; split; [reflexivity|apply millis_nonneg, Hidle]|].
    split; [auto|discriminate].
  - split; [eexists; split; [reflexivity|apply py_max_nonneg]|].
    split; [auto|]. intros _ Hle. unfold py_max.
    assert (H : Qle_bool (clock w (tick w) - last_activity d) 0 = true).
    { apply Qle_bool_iff. lra. }
    rewrite H. reflexivity.
Qed.


(** *** What [process_events] returns *)

Lemma handle_event_result swallow ev a d w :
  result (handle_event swallow ev a d w) =
    Ret (if observed_as_input (xi2_raw_enabled d) ev then true else a).
Proof.
  rewrite handle_event_out. unfold observed_as_input.
  destruct (core_names !! ev_type ev) as [name|].
  - destruct (blanked d && swallow); reflexivity.
  - destruct (ev_evtype ev) as [c|]; [|reflexivity].
    destruct (xi2_raw_enabled d); [|reflexivity].
    destruct (blanked d && swallow && str_in (raw_name_of c) wake_raw_names);
      reflexivity.
Qed.

Lemma keeps_subscription_handle b swallow ev a :
  keeps (fun d => xi2_raw_enabled d = b) any_effect
        (handle_event swallow ev a).
Proof. keeps_auto; flag_side; exact I. Qed.

Lemma process_loop_result swallow q :
  forall n a d w,
    queue w = q -> (length q < n)%nat ->
    result (process_loop n swallow a d w) =
      Ret (a || existsb (observed_as_input (xi2_raw_enabled d)) q).
Proof.
  induction q as [|ev q IH]; intros n a d w Hq Hn.
  - destruct n as [|n]; [cbn in Hn; lia|].
    rewrite (process_loop_nil n swallow a d w Hq). cbn.
    rewrite orb_false_r. reflexivity.
  - destruct n as [|n]; [cbn in Hn; lia|].
    rewrite (process_loop_cons n swallow a d w ev q Hq).
    pose proof (handle_event_result swallow ev a d (with_queue q w)) as Hr.
    pose proof (handle_event_queue swallow ev a d (with_queue q w)) as Hq1.
    destruct (keeps_subscription_handle (xi2_raw_enabled d) swallow ev a d
                (with_queue q w) eq_refl) as [Hx _].
    rewrite (bind_returned _ _ _ _ _ Hr).
    set (o1 := handle_event swallow ev a d (with_queue q w)) in *.
    cbn in Hn. unfold after; cbn [result].
    rewrite (IH n _ (self' o1) (world' o1) Hq1 ltac:(lia)), Hx.
    cbn [existsb].
    destruct (observed_as_input (xi2_raw_enabled d) ev), a; reflexivity.
Qed.

(** X5 (the return value of [process_events]).  [process_events] always
    returns, having drained the whole queue, and what it returns is
    whether the batch held at least one event counted as input: a core
    key, button or motion event, or -- with the raw subscription enabled
    -- an event that carries an XI2 [evtype].  On an empty queue, or on a
    batch of other events only, it returns [False]. *)
Theorem process_events_reports_activity
    (swallow : bool) (d : IdleSwallowDaemon) (w : World) :
  let o := process_events swallow d w in
  result o =
    Ret (existsb (observed_as_input (xi2_raw_enabled d)) (queue w)) /\
  queue (world' o) = [] /\
  xi2_raw_enabled (self' o) = xi2_raw_enabled d.
Proof.
  cbv zeta. split; [|split].
  - unfold process_events.
    rewrite (process_loop_result swallow (queue w)) by (reflexivity || lia).
    reflexivity.
  - apply process_events_drains.
  - apply (keeps_process_events (fun d' => xi2_raw_enabled d' = xi2_raw_enabled d)
             any_effect swallow
             (keeps_subscription_handle (xi2_raw_enabled d) swallow) d w eq_refl).
Qed.

(** *** Events that do not wake *)

Lemma keeps_unswallowed_handle b ov ev a :
  keeps (fun d => blanked d = b /\ overlay d = ov) ordinary
        (handle_event false ev a).
Proof.
  intros d w [Hb Ho]. rewrite handle_event_out, andb_false_r. cbn [andb].
  destruct (core_names !! ev_type ev) as [name|].
  - destruct (note_activity_frame (ev_evtype ev) name d w)
      as (H1 & H2 & _ & _ & H5).
    cbn [returning self' emitted]. rewrite H1, H2. auto.
  - destruct (ev_evtype ev) as [c|]; [|cbn; auto].
    destruct (xi2_raw_enabled d); [|cbn; auto].
    destruct (note_activity_frame (Some c) (raw_name_of c) d w)
      as (H1 & H2 & _ & _ & H5).
    cbn [returning self' emitted]. rewrite H1, H2. auto.
Qed.

(** X6 ([swallow_if_blanked=False]).  Called with swallowing off,
    [process_events] never wakes: whatever the batch, [blanked] and the
    overlay handle are as before, and the trace holds no shell command,
    sleep, window request or store to [blanked] or [overlay] -- also when
    the daemon is blanked and the batch is full of button presses. *)
Theorem unswallowed_events_never_wake (d : IdleSwallowDaemon) (w : World) :
  let o := process_events false d w in
  blanked (self' o) = blanked d /\ overlay (self' o) = overlay d /\
  Forall ordinary (emitted o) /\ wake_count (emitted o) = O.
Proof.
  cbv zeta.
  destruct (keeps_process_events
              (fun d' => blanked d' = blanked d /\ overlay d' = overlay d)
              ordinary false
              (keeps_unswallowed_handle (blanked d) (overlay d)) d w
              (conj eq_refl eq_refl)) as [[Hb Ho] Ht].
  repeat split; auto. apply wake_count_ordinary, Ht.
Qed.

Lemma process_loop_sleeps_on q :
  forall n a d w,
    blanked d = true -> queue w = q -> (length q < n)%nat ->
    forallb (fun e => negb (qualifies (xi2_raw_enabled d) e)) q = true ->
    let o := process_loop n true a d w in
    blanked (self' o) = true /\ overlay (self' o) = overlay d /\
    Forall ordinary (emitted o).
Proof.
  induction q as [|ev q IH]; intros n a d w Hb Hq Hn Hall; cbv zeta.
  - destruct n as [|n]; [cbn in Hn; lia|].
    rewrite (process_loop_nil n true a d w Hq). cbn. auto.
  - destruct n as [|n]; [cbn in Hn; lia|].
    cbn [forallb] in Hall. apply andb_prop in Hall as [He Hall].
    apply negb_true_iff in He.
    rewrite (process_loop_cons n true a d w ev q Hq).
    destruct (handle_event_sleeps_on ev a d (with_queue q w) Hb He)
      as (Hb1 & Ho1 & Hx1 & Ht1).
    destruct (handle_event_returns true ev a d (with_queue q w)) as [a1 Hr].
    pose proof (handle_event_queue true ev a d (with_queue q w)) as Hq1.
    rewrite (bind_returned _ _ _ _ _ Hr).
    set (o1 := handle_event true ev a d (with_queue q w)) in *.
    cbn in Hn. rewrite <- Hx1 in Hall.
    destruct (IH n a1 (self' o1) (world' o1) Hb1 Hq1 ltac:(lia) Hall)
      as (Hb2 & Ho2 & Ht2).
    unfold after; cbn [self' emitted].
    split; [exact Hb2|]. split; [congruence|]. apply Forall_app; auto.
Qed.

(** X7 (a batch without a qualifying event).  A blanked daemon that
    drains a batch in which no event qualifies -- raw motion, raw
    releases, touch updates, structure notifications, unnamed raw codes
    -- stays blanked with its overlay, and the trace holds nothing of a
    wake action. *)
Theorem batch_without_trigger_stays_blanked
    (d : IdleSwallowDaemon) (w : World)
    (Hb : blanked d = true)
    (Hall : forallb (fun e => negb (qualifies (xi2_raw_enabled d) e))
                    (queue w) = true) :
  let o := process_events true d w in
  blanked (self' o) = true /\ overlay (self' o) = overlay d /\
  Forall ordinary (emitted o) /\ wake_count (emitted o) = O.
Proof.
  cbv zeta. unfold process_events.
  destruct (process_loop_sleeps_on (queue w) (S (length (queue w))) false d w
              Hb eq_refl ltac:(lia) Hall) as (H1 & H2 & H3).
  repeat split; auto. apply wake_count_ordinary, H3.
Qed.


(** *** The loop *)


Lemma wait_and_dispatch_waits tmo d w :
  waits (emitted (wait_and_dispatch tmo d w)) = [tmo].
Proof.
  destruct (wait_and_dispatch_trace tmo d w) as (rest & He & Hw & _).
  rewrite He. change (ESelect tmo :: rest) with ([ESelect tmo] ++ rest)%list.
  rewrite waits_app, Hw. reflexivity.
Qed.

(** One pass of the loop body, step by step. *)
Lemma run_iteration_out d w :
  run_iteration d w =
    if blanked d then wait_and_dispatch None d w
    else
      let oi := get_idle_seconds d w in
      match result oi with
      | Raise e => mkOut (Raise e) (self' oi) (world' oi) (emitted oi)
      | Ret idle_sec =>
          let remaining := (inject_Z (timeout d) - idle_sec)%Q in
          after (emitted oi)
            (if Qle_bool remaining 0 then
               let ob := blank_screen (self' oi) (world' oi) in
               match result ob with
               | Raise e =>
                   mkOut (Raise e) (self' ob) (world' ob) (emitted ob)
               | Ret _ =>
                   after (emitted ob)
                         (wait_and_dispatch None (self' ob) (world' ob))
               end
             else wait_and_dispatch (Some remaining) (self' oi) (world' oi))
      end.
Proof.
  unfold run_iteration. rewrite bind_attr.
  destruct (blanked d) eqn:Hb; cbn [negb].
  - rewrite bind_ret. reflexivity.
  - cbv zeta. destruct (get_idle_seconds_returns d w) as [idle Hi].
    destruct (get_idle_seconds_frame d w) as (Ht & _).
    rewrite Hi, bind_assoc, (bind_returned _ _ _ _ _ Hi). cbv beta.
    rewrite bind_assoc, bind_attr, Ht.
    destruct (Qle_bool (inject_Z (timeout d) - idle) 0).
    + rewrite bind_assoc.
      destruct (result (blank_screen _ _)) as [[]|e] eqn:Hob.
      * rewrite (bind_returned _ _ _ _ _ Hob), bind_ret. reflexivity.
      * rewrite (bind_raised _ _ _ _ _ Hob). reflexivity.
    + rewrite bind_ret. reflexivity.
Qed.

Lemma get_idle_seconds_nonneg d w idle :
  0 <= ss_idle w (tick w) ->
  result (get_idle_seconds d w) = Ret idle -> (0 <= idle)%Q.
Proof.
  intros Hidle. rewrite get_idle_seconds_eq.
  destruct (ss_available d); [destruct (x_raises w (tick w))|];
    cbn [result]; intros H; injection H as <-;
    auto using py_max_nonneg, millis_nonneg.
Qed.

(** A wait that [select] accepts and that does not overrun the idle
    deadline. *)
Definition sound_wait (t : Z) (tmo : option Q) : Prop :=
  match tmo with
  | None => True
  | Some r => (0 < r)%Q /\ (r <= inject_Z t)%Q
  end.

(** X8 (the wait timeout is in range).  Provided the platform reports a
    non-negative idle time, a pass of the loop waits at most once, and its
    wait is either unbounded or bounded by some [r] with
    [0 < r <= timeout]: [select] is never handed a zero or negative
    timeout, and never one beyond the configured idle timeout. *)
Theorem wait_timeout_in_range
    (d : IdleSwallowDaemon) (w : World)
    (Hidle : 0 <= ss_idle w (tick w)) :
  let ws := waits (emitted (run_iteration d w)) in
  (length ws <= 1)%nat /\ Forall (sound_wait (timeout d)) ws.
Proof.
  cbv zeta. rewrite run_iteration_out.
  destruct (blanked d).
  { rewrite wait_and_dispatch_waits. cbn [length]. split; [lia|].
    constructor; [exact I|constructor]. }
  cbv zeta.
  destruct (keeps_no_wait_idle d w I) as [_ Hwi].
  destruct (result (get_idle_seconds d w)) as [idle|e] eqn:Hi.
  2:{ cbn [emitted]. rewrite (waits_none _ Hwi). cbn [length].
      split; [lia|constructor]. }
  pose proof (get_idle_seconds_nonneg d w idle Hidle Hi) as Hpos.
  destruct (Qle_bool (inject_Z (timeout d) - idle) 0) eqn:Hr.
  - destruct (keeps_no_wait_blank (self' (get_idle_seconds d w))
                (world' (get_idle_seconds d w)) I) as [_ Hwb].
    destruct (result (blank_screen _ _)).
    + unfold after; cbn [emitted].
      rewrite !waits_app, (waits_none _ Hwi), (waits_none _ Hwb),
        wait_and_dispatch_waits.
      cbn [app length]. split; [lia|]. constructor; [exact I|constructor].
    + unfold after; cbn [emitted].
      rewrite !waits_app, (waits_none _ Hwi), (waits_none _ Hwb).
      cbn [app length]. split; [lia|constructor].
  - unfold after; cbn [emitted].
    rewrite !waits_app, (waits_none _ Hwi), wait_and_dispatch_waits.
    cbn [app length]. split; [lia|].
    constructor; [|constructor]. cbn [sound_wait].
    assert (Hn : ~ (inject_Z (timeout d) - idle <= 0)%Q).
    { intros H. apply Qle_bool_iff in H. congruence. }
    split; lra.
Qed.






(** *** Startup *)

(** X10 (what is fatal at startup).  [__init__] raises exactly when
    opening the display or selecting the root events raises; a failing
    screen-saver query or XI2 setup never makes it raise.  When it
    returns, the daemon is awake without overlay, [timeout] is the
    argument, [last_activity] is the clock reading taken right after the
    connection was set up, and [ss_available] tells whether the probing
    query succeeded. *)
Theorem init_is_fatal_only_without_connection
    (timeout_arg : Z) (w : World) :
  let o := __init__ timeout_arg uninitialised w in
  let n := tick w in
  (x_raises w n = true -> result o = Raise (XError OpenDisplay)) /\
  (x_raises w n = false -> x_raises w (S n) = true ->
   result o = Raise (XError (ChangeAttributes root_event_mask))) /\
  (x_raises w n = false -> x_raises w (S n) = false ->
   result o = Ret tt /\
   timeout (self' o) = timeout_arg /\
   overlay (self' o) = None /\ blanked (self' o) = false /\
   last_activity (self' o) = clock w (S (S n)) /\
   ss_available (self' o) = negb (x_raises w (S (S (S n))))).
Proof.
  unfold __init__, enable_xi2, getattr_xinput. open_methods. cbn.
  split_xinput; repeat split; intros; try discriminate; reflexivity.
Qed.


(** The raw names that [__init__] cannot do without, and the touch names
    it adds when [xinput] has them, in the order of the source. *)
Definition mandatory_raw_names : list string :=
  ["RawMotion"; "RawKeyPress"; "RawKeyRelease"; "RawButtonPress";
   "RawButtonRelease"].

Definition touch_raw_names : list string :=
  ["RawTouchBegin"; "RawTouchEnd"; "RawTouchUpdate"].

Definition selects_raw_events (e : Effect) : bool :=
  match e with
  | EX (XISelectEvents _) => true
  | _ => false
  end.

(** X11 (when the raw subscription is made).  After [__init__],
    [xi2_raw_enabled] is true exactly when the screen-saver query raised,
    [xinput] has all five mandatory raw names, and the XI2 version query,
    the event selection and the flush all succeeded; the mask selected is
    then the five mandatory codes followed by the codes of the touch names
    that [xinput] has.  If a mandatory name is missing, no event
    selection is sent at all; and in every case in which the subscription
    was attempted and not made, a warning is logged and [__init__] still
    returns. *)
Theorem raw_subscription_needs_every_step (timeout_arg : Z) (w : World) :
  let o := __init__ timeout_arg uninitialised w in
  let n := tick w in
  (xi2_raw_enabled (self' o) = true <->
   x_raises w n = false /\ x_raises w (S n) = false /\
   x_raises w (3 + n) = true /\
   forallb (fun name => bool_decide (is_Some (xinput name)))
           mandatory_raw_names = true /\
   x_raises w (4 + n) = false /\ x_raises w (5 + n) = false /\
   x_raises w (6 + n) = false) /\
  (xi2_raw_enabled (self' o) = true ->
   exists m1 m2 m3 m4 m5,
     map xinput mandatory_raw_names =
       [Some m1; Some m2; Some m3; Some m4; Some m5] /\
     In (EX (XISelectEvents
               (append_touch touch_raw_names [m1; m2; m3; m4; m5])))
        (emitted o)) /\
  (forallb (fun name => bool_decide (is_Some (xinput name)))
           mandatory_raw_names = false ->
   Forall (fun e => selects_raw_events e = false) (emitted o)) /\
  (result o = Ret tt -> ss_available (self' o) = false ->
   xi2_raw_enabled (self' o) = false ->
   exists e, In (ELog WARNING (MsgXi2Failed e)) (emitted o)).
Proof.
  unfold __init__, enable_xi2, getattr_xinput, mandatory_raw_names,
    touch_raw_names.
  open_methods. cbn.
  split_xinput;
    (split; [split; [intros H;
                     first [discriminate | repeat split; reflexivity]
                    | intros (? & ? & ? & ? & ? & ? & ?);
                      first [discriminate | reflexivity]]
            | split; [intros H;
                      first [discriminate
                            | do 5 eexists; split; [reflexivity | cbn; tauto]]
                     | split; [intros H;
                               first [discriminate | repeat constructor]
                              | intros H1 H2 H3;
                                first [discriminate
                                      | eexists; cbn; eauto 20]]]]).
Qed.


(** *** The order of the power commands *)

(** Replay a list of shell commands against the blank state: a power-off
    is only accepted while awake, a power-on only while blanked, and no
    other command at all.  The result is the blank state at the end. *)
Fixpoint replay_power (is_blanked : bool) (cmds : list string) : option bool :=
  match cmds with
  | [] => Some is_blanked
  | c :: rest =>
      if is_blanked then
        if String.eqb c power_on_cmd then replay_power false rest else None
      else
        if String.eqb c power_off_cmd then replay_power true rest else None
  end.

(** [m] issues its power commands in step with the [blanked] flag. *)
Definition in_step {A} (m : M A) : Prop :=
  forall d w,
    replay_power (blanked d) (shell_cmds (emitted (m d w))) =
      Some (blanked (self' (m d w))).

Lemma replay_power_app b l1 l2 :
  replay_power b (l1 ++ l2) =
    match replay_power b l1 with
    | Some b' => replay_power b' l2
    | None => None
    end.
Proof.
  revert b. induction l1 as [|c l1 IH]; intros b; [reflexivity|].
  cbn [app replay_power].
  destruct b; destruct (String.eqb c _); auto.
Qed.

Lemma shell_cmds_app t1 t2 :
  shell_cmds (t1 ++ t2) = (shell_cmds t1 ++ shell_cmds t2)%list.
Proof. apply omap_app. Qed.

Lemma shell_cmds_ordinary t : Forall ordinary t -> shell_cmds t = [].
Proof.
  induction 1 as [|e t [He _] _ IH]; [reflexivity|].
  unfold shell_cmds in *. cbn. destruct e; try discriminate; exact IH.
Qed.

Lemma in_step_after {A B} (m : M A) (k : A -> M B) d w a :
  result (m d w) = Ret a ->
  replay_power (blanked d) (shell_cmds (emitted (m d w))) =
    Some (blanked (self' (m d w))) ->
  in_step (k a) ->
  replay_power (blanked d) (shell_cmds (emitted (bind m k d w))) =
    Some (blanked (self' (bind m k d w))).
Proof.
  intros Hr Hm Hk. rewrite (bind_returned _ _ _ _ _ Hr).
  unfold after; cbn [self' emitted].
  rewrite shell_cmds_app, replay_power_app, Hm. apply Hk.
Qed.

Lemma in_step_blank : in_step blank_screen.
Proof.
  intros d w. destruct d as [t [id|] [|] la ss xi]; run_methods; reflexivity.
Qed.

Lemma in_step_wake : in_step wake_screen.
Proof.
  intros d w. destruct d as [t [id|] [|] la ss xi]; run_methods; reflexivity.
Qed.

Lemma in_step_idle : in_step get_idle_seconds.
Proof.
  intros d w. rewrite get_idle_seconds_eq.
  destruct (ss_available d); [destruct (x_raises w (tick w))|]; reflexivity.
Qed.

Lemma in_step_note_activity evtype_attr kind d w :
  replay_power (blanked d)
    (shell_cmds (emitted (note_activity evtype_attr kind d w))) =
    Some (blanked (self' (note_activity evtype_attr kind d w))).
Proof.
  destruct (note_activity_frame evtype_attr kind d w) as (Hb & _ & _ & _ & Ht).
  rewrite (shell_cmds_ordinary _ Ht), Hb. reflexivity.
Qed.

Lemma in_step_handle swallow ev a : in_step (handle_event swallow ev a).
Proof.
  intros d w. rewrite handle_event_out.
  repeat match goal with
         | |- context [match ?x with _ => _ end] => destruct x
         end;
    cbn [returning after self' emitted];
    try apply in_step_note_activity; try reflexivity;
    rewrite shell_cmds_app,
      (shell_cmds_ordinary _ (event_log_ordinary _ _ _ _));
    apply in_step_wake.
Qed.

Lemma in_step_process_loop swallow q :
  forall n a d w,
    queue w = q -> (length q < n)%nat ->
    replay_power (blanked d)
      (shell_cmds (emitted (process_loop n swallow a d w))) =
      Some (blanked (self' (process_loop n swallow a d w))).
Proof.
  induction q as [|ev q IH]; intros n a d w Hq Hn.
  - destruct n as [|n]; [cbn in Hn; lia|].
    rewrite (process_loop_nil n swallow a d w Hq). reflexivity.
  - destruct n as [|n]; [cbn in Hn; lia|].
    rewrite (process_loop_cons n swallow a d w ev q Hq).
    destruct (handle_event_returns swallow ev a d (with_queue q w)) as [a1 Hr].
    pose proof (handle_event_queue swallow ev a d (with_queue q w)) as Hq1.
    rewrite (bind_returned _ _ _ _ _ Hr). unfold after; cbn [self' emitted].
    rewrite shell_cmds_app, replay_power_app.
    rewrite (in_step_handle swallow ev a d (with_queue q w)).
    cbn in Hn. apply (IH n a1 _ _ Hq1). lia.
Qed.

Lemma in_step_process swallow : in_step (process_events swallow).
Proof.
  intros d w. unfold process_events.
  apply (in_step_process_loop swallow (queue w)); [reflexivity | lia].
Qed.

Lemma in_step_wait_and_dispatch tmo : in_step (wait_and_dispatch tmo).
Proof.
  intros d w. unfold wait_and_dispatch.
  rewrite (bind_returned _ _ _ _ (fd_ready w (tick w))) by reflexivity.
  unfold after; cbn [self' world' emitted select_select].
  change (shell_cmds ([ESelect tmo] ++ ?t)) with (shell_cmds t).
  destruct (fd_ready w (tick w)); cbn [negb]; [|reflexivity].
  destruct (process_events_drains true d (advance w)) as ([a Ha] & _).
  rewrite (bind_then_ret _ _ _ _ a Ha). cbn [returning self' emitted].
  apply in_step_process.
Qed.

Lemma in_step_iteration : in_step run_iteration.
Proof.
  intros d w. rewrite run_iteration_out.
  destruct (blanked d) eqn:Hb.
  { rewrite <- Hb. apply in_step_wait_and_dispatch. }
  cbv zeta. pose proof (in_step_idle d w) as Hi. rewrite Hb in Hi.
  destruct (result (get_idle_seconds d w)) as [idle|e]; [|exact Hi].
  destruct (Qle_bool (inject_Z (timeout d) - idle) 0).
  - pose proof (in_step_blank (self' (get_idle_seconds d w))
                  (world' (get_idle_seconds d w))) as Hk.
    destruct (result (blank_screen _ _)).
    + unfold after; cbn [self' emitted].
      rewrite !shell_cmds_app, replay_power_app, Hi.
      rewrite replay_power_app, Hk.
      apply in_step_wait_and_dispatch.
    + unfold after; cbn [self' emitted].
      rewrite shell_cmds_app, replay_power_app, Hi. exact Hk.
  - unfold after; cbn [self' emitted].
    rewrite shell_cmds_app, replay_power_app, Hi.
    apply in_step_wait_and_dispatch.
Qed.

Lemma in_step_op o : in_step (run_op o).
Proof.
  destruct o; cbn [run_op].
  - apply in_step_blank.
  - apply in_step_wake.
  - intros d w.
    destruct (process_events_drains swallow_if_blanked d w) as ([a Ha] & _).
    rewrite (bind_then_ret _ _ _ _ a Ha). apply in_step_process.
  - intros d w. destruct (get_idle_seconds_returns d w) as [v Hv].
    rewrite (bind_then_ret _ _ _ _ v Hv). apply in_step_idle.
  - apply in_step_iteration.
Qed.

Lemma in_step_run_loop n : in_step (run_loop n).
Proof.
  induction n as [|n IH]; intros d w; [reflexivity|].
  cbn [run_loop]. pose proof (in_step_iteration d w) as H1.
  destruct (result (run_iteration d w)) as [[]|e] eqn:Hr.
  - apply (in_step_after _ _ _ _ tt Hr H1). exact IH.
  - rewrite (bind_raised _ _ _ _ _ Hr). exact H1.
Qed.

(** X12 (power commands alternate).  Along any sequence of operations,
    each in an arbitrary world and from any state, and along any number
    of passes of [run], the only shell commands issued are the power-off
    and the power-on command, and they are in step with the [blanked]
    flag: a power-off only while awake, a power-on only while blanked,
    the flag flipping with each.  So the display is never powered off
    twice in a row, and never powered on without having been powered off
    before (a daemon just constructed is awake). *)
Theorem power_commands_alternate
    (script : list (Op * World)) (n : nat)
    (d : IdleSwallowDaemon) (w : World) :
  replay_power (blanked d) (shell_cmds (snd (exec script d))) =
    Some (blanked (fst (exec script d))) /\
  replay_power (blanked d) (shell_cmds (emitted (run n d w))) =
    Some (blanked (self' (run n d w))).
Proof.
  split.
  - revert d. induction script as [|[o w0] rest IH]; intros d; [reflexivity|].
    cbn [exec]. specialize (IH (self' (run_op o d w0))).
    destruct (exec rest (self' (run_op o d w0))) as [d' t]. cbn [fst snd] in *.
    rewrite shell_cmds_app, replay_power_app, (in_step_op o d w0). exact IH.
  - unfold run. rewrite bind_attr.
    rewrite (bind_returned _ _ _ _ tt) by reflexivity.
    unfold after; cbn [self' world' emitted logging emit].
    change (shell_cmds ([ELog INFO (MsgStarted (timeout d))] ++ ?t))
      with (shell_cmds t).
    apply in_step_run_loop.
Qed.


(** *** Facts about [__init__] and [run] used at the level of the script *)


Lemma init_opens_display timeout_arg w :
  In (EX OpenDisplay) (emitted (__init__ timeout_arg uninitialised w)).
Proof.
  unfold __init__, enable_xi2, getattr_xinput. open_methods. cbn.
  split_xinput; cbn; tauto.
Qed.

Lemma init_timeout timeout_arg w :
  result (__init__ timeout_arg uninitialised w) = Ret tt ->
  timeout (self' (__init__ timeout_arg uninitialised w)) = timeout_arg.
Proof.
  unfold __init__, enable_xi2, getattr_xinput. open_methods. cbn.
  split_xinput; intros H; try discriminate; reflexivity.
Qed.




End Daemon.

(* ===================================================================== *)
(** ** The claims at concrete inputs *)
(* ===================================================================== *)

(** The model at work: startup with and without the screen-saver
    extension, and two passes of the loop that blank and wake. *)
Example init_with_screensaver :
  self' (__init__ xinput2 5 uninitialised (steady 3 0 [])) =
    mkDaemon 5 None false 3 true false.
Proof. reflexivity. Qed.

Example init_without_screensaver :
  self' (__init__ xinput2 5 uninitialised (no_screensaver 3 [])) =
    mkDaemon 5 None false 3 false true /\
  x_requests (emitted (__init__ xinput2 5 uninitialised (no_screensaver 3 []))) =
    [OpenDisplay; ChangeAttributes root_event_mask; ScreenSaverQueryInfo;
     XIQueryVersion 2 3; XISelectEvents [17; 13; 14; 15; 16; 22; 24; 23];
     Flush].
Proof. split; reflexivity. Qed.

Example blank_then_wake :
  let o1 := run_iteration X11 xinput2 false awake_daemon (steady 6 6000 []) in
  let o2 := run_iteration X11 xinput2 false (self' o1)
                          (steady 7 0 [button_press; button_press]) in
  self' o1 = mkDaemon 5 (Some 4194305) true 0 true false /\
  shell_cmds (emitted o1) = [power_off_cmd] /\
  self' o2 = mkDaemon 5 None false 7 true false /\
  shell_cmds (emitted o2) = [power_on_cmd] /\
  waits (emitted o2) = [None].
Proof. repeat split; reflexivity. Qed.

(** A run that starts the daemon, blanks on the first pass of the loop
    (six seconds idle against a timeout of five), wakes on a button press,
    and blanks again. *)
Lemma overlay_present_iff_blanked_witness :
  let w0 := steady 0 0 [] in
  let script :=
    [(OpIterate, steady 6 6000 []);
     (OpIterate, steady 7 0 [button_press]);
     (OpBlank, steady 20 0 [])] in
  let d := fst (exec X11 xinput2 true script
                     (self' (__init__ xinput2 5 uninitialised w0))) in
  result (__init__ xinput2 5 uninitialised w0) = Ret tt /\
  blanked d = true /\
  (is_Some (overlay d) <-> blanked d = true).
Proof.
  intros w0 script d.
  split; [reflexivity | split; [reflexivity |]].
  apply (overlay_present_iff_blanked X11 xinput2 true 5 w0 script).
  reflexivity.
Defined.

(** The XI2 codes are pairwise distinct. *)
Lemma xinput2_distinct : distinct_codes xinput2.
Proof.
  intros n1 n2 c H1 H2. cbn in H1, H2.
  repeat match goal with
         | H : _ \/ _ |- _ => destruct H as [<-|H]
         | H : False |- _ => destruct H
         end; cbn; congruence.
Qed.

(** A touch on a blanked screen: [RawTouchBegin] wakes it. *)
Lemma wake_triggers_witness :
  let o := handle_event X11 xinput2 true true (raw 22) false blanked_daemon
                        (steady 9 0 []) in
  blanked blanked_daemon = true /\
  qualifies X11 xinput2 true (raw 22) = true /\
  blanked (self' o) = false /\ wake_count (emitted o) = 1%nat.
Proof.
  intros o.
  destruct (wake_triggers X11 xinput2 true blanked_daemon (steady 9 0 [])
                          (raw 22) false eq_refl) as [H _].
  destruct (H eq_refl) as (H1 & _ & H3 & _).
  repeat split; assumption.
Defined.


(** Scenario E at the XI2 codes, on the fallback path with a ticking
    clock: RawTouchBegin wakes (clock reading 5 at the end of the wake),
    RawMotion and RawButtonPress are activity (readings 6 and 7). *)
Lemma only_first_qualifying_event_wakes_witness :
  let w := ticking [raw 22; raw 17; raw 15] in
  let o := process_events X11 xinput2 false true blanked_daemon w in
  blanked blanked_daemon = true /\ xi2_raw_enabled blanked_daemon = true /\
  blanked (self' o) = false /\ wake_count (emitted o) = 1%nat /\
  last_activity (self' o) = 7%Q /\
  emitted o =
    [EShell power_on_cmd; ESleep settle_delay;
     EX (UnmapWindow 4194305); EX (DestroyWindow 4194305); EX Sync;
     ELog INFO (MsgOverlayDestroyed (Some 4194305));
     EStore (SetOverlay None); EStore (SetBlanked false);
     EStore (SetLastActivity 5); ELog INFO MsgAwakened;
     EStore (SetLastActivity 6); EStore (SetLastActivity 7)].
Proof.
  intros w o.
  destruct (proj2 (only_first_qualifying_event_wakes X11 xinput2 false)
                  blanked_daemon w (raw 22) (raw 17) (raw 15) 22 17 15
                  xinput2_distinct eq_refl eq_refl eq_refl
                  eq_refl eq_refl eq_refl eq_refl eq_refl eq_refl
                  eq_refl eq_refl eq_refl)
    as (_ & _ & _ & _ & Hb & Hc & Ht & Hs).
  split; [reflexivity|]. split; [reflexivity|].
  split; [exact Hb|]. split; [exact Hc|].
  split; [unfold o; rewrite Hs; reflexivity|].
  unfold o. rewrite Ht. reflexivity.
Defined.

(** The idle query fails on a daemon that had it: fallback from then on. *)
Lemma idle_fallback_is_permanent_witness :
  let w := failing 12 [] in
  let o := get_idle_seconds awake_daemon w in
  ss_available awake_daemon = true /\ x_raises w (tick w) = true /\
  result o = Ret 12%Q /\ ss_available (self' o) = false.
Proof.
  intros w o.
  destruct (idle_fallback_is_permanent X11 xinput2 true awake_daemon w
                                       eq_refl eq_refl)
    as (Hr & Hs & _).
  split; [reflexivity|]. split; [reflexivity|].
  split; [exact Hr | exact Hs].
Defined.

(** Blanking a blanked daemon. *)
Lemma overlay_and_blank_idempotent_witness :
  blanked blanked_daemon = true /\
  blank_screen blanked_daemon (steady 9 0 []) =
    mkOut (Ret tt) blanked_daemon (steady 9 0 []) [].
Proof.
  split; [reflexivity|].
  destruct (overlay_and_blank_idempotent blanked_daemon (steady 9 0 []))
    as (_ & _ & H & _).
  exact (H eq_refl).
Defined.

(** Waking a blanked daemon in a calm world. *)
Lemma wake_screen_sequence_witness :
  blanked blanked_daemon = true /\
  emitted (wake_screen blanked_daemon (steady 9 0 [])) =
    [EShell power_on_cmd; ESleep settle_delay;
     EX (UnmapWindow 4194305); EX (DestroyWindow 4194305); EX Sync;
     ELog INFO (MsgOverlayDestroyed (Some 4194305));
     EStore (SetOverlay None); EStore (SetBlanked false);
     EStore (SetLastActivity 9); ELog INFO MsgAwakened].
Proof.
  split; [reflexivity|].
  destruct (wake_screen_sequence blanked_daemon (steady 9 0 [])) as [_ H].
  destruct (H eq_refl) as (_ & Ht & _).
  exact Ht.
Defined.

(** Destroying the overlay when the very first request raises. *)
Lemma destroy_overlay_absorbs_errors_witness :
  let o := destroy_overlay blanked_daemon (failing 9 []) in
  overlay blanked_daemon = Some 4194305 /\
  result o = Ret tt /\ overlay (self' o) = None /\
  emitted o =
    [EX (UnmapWindow 4194305);
     ELog WARNING (MsgDestroyFailed (XError (UnmapWindow 4194305)));
     EStore (SetOverlay None)].
Proof.
  intros o.
  destruct (destroy_overlay_absorbs_errors blanked_daemon (failing 9 [])
                                           4194305 eq_refl)
    as (Hr & _ & Ho & Ht & _).
  split; [reflexivity|]. split; [apply Hr|]. split; [exact Ho | exact Ht].
Defined.

(** A button press seen by an awake daemon on the fallback path. *)
Lemma input_events_feed_fallback_clock_witness :
  let d := mkDaemon 5 None false 0 false false in
  let o := handle_event X11 xinput2 true true button_press false d
                        (steady 100 0 []) in
  blanked d = false /\ ss_available d = false /\
  last_activity (self' o) = 100%Q.
Proof.
  intros d o.
  destruct (input_events_feed_fallback_clock X11 xinput2 true d
              (steady 100 0 []) button_press true false eq_refl eq_refl)
    as (_ & _ & _ & H & _).
  destruct (H eq_refl) as (_ & _ & Hl & _).
  split; [reflexivity|]. split; [reflexivity|]. exact Hl.
Defined.

(** The platform query works at startup and fails later: no subscription. *)
Lemma raw_subscription_only_at_startup_witness :
  let o0 := __init__ xinput2 5 uninitialised (steady 0 0 []) in
  let script := [(OpIdle, failing 7 []); (OpIterate, steady 8 0 [button_press])] in
  let d := fst (exec X11 xinput2 true script (self' o0)) in
  ss_available (self' o0) = true /\ ss_available d = false /\
  xi2_raw_enabled d = false.
Proof.
  intros o0 script d.
  destruct (raw_subscription_only_at_startup X11 xinput2 true 5
              (steady 0 0 []) script) as (_ & _ & H).
  destruct (H eq_refl) as (_ & _ & Hx).
  split; [reflexivity|]. split; [reflexivity | exact Hx].
Defined.

(** C9 as stated fails on a structure notification (ConfigureNotify, code
    22), which the root event mask of [__init__] selects: the event is
    drained, and [last_activity] stays at 0 while the clock reads 100. *)
Lemma structure_notify_is_not_activity :
  ~ (forall X xinput debug, every_observed_event_is_activity X xinput debug).
Proof.
  intros H.
  destruct (H X11 xinput2 true (mkDaemon 5 None false 0 false false)
              (steady 100 0 [configure_notify]) configure_notify
              eq_refl eq_refl eq_refl) as [_ Hl].
  vm_compute in Hl. discriminate.
Qed.

(* ===================================================================== *)
(** ** The script: configuration and [main] *)
(* ===================================================================== *)

(** Module-level code of [kiosk_idle.py] and its [main].  Environment
    values are byte strings; [str.lower] is modelled on the ASCII letters,
    which is all that the comparison with ["true"] looks at.  The result
    of the built-in [float] on a string is an input of the model.  As
    elsewhere, asynchronous interrupts ([KeyboardInterrupt]) are not
    modelled. *)

Definition ascii_lower (a : Ascii.ascii) : Ascii.ascii :=
  let n := Ascii.nat_of_ascii a in
  if (65 <=? n)%nat && (n <=? 90)%nat then Ascii.ascii_of_nat (n + 32) else a.

Fixpoint str_lower (s : string) : string :=
  match s with
  | EmptyString => EmptyString
  | String a rest => String (ascii_lower a) (str_lower rest)
  end.

(** A Python float. *)
Inductive PyFloat :=
| Finite (q : Q)
| Infinity (negative : bool)
| NaN.

Inductive ScriptExn := ValueError | OverflowError.

(** [int(x)] of a float: truncation toward zero; [ValueError] on NaN and
    [OverflowError] on an infinity. *)
Definition py_int (x : PyFloat) : ScriptExn + Z :=
  match x with
  | Finite q => inr (Z.quot (Qnum q) (Zpos (Qden q)))
  | Infinity _ => inl OverflowError
  | NaN => inl ValueError
  end.

Inductive Severity := LogInfo | LogError | LogCritical.

Inductive ScriptMsg :=
| MsgImportFailed
| MsgInvalidTimeout (value : string)
| MsgNothingToManage
| MsgSwallowDisabled
| MsgUnhandled (e : Exn).

(** What the script does: its own log lines, and the trace of the
    daemon. *)
Inductive ScriptEffect :=
| AtTopLevel (lvl : Severity) (m : ScriptMsg)
| InDaemon (e : Effect).

(** How the script stands after its module-level code and [n] passes of
    the loop: it has called [sys.exit], it has died of an exception that
    nothing catches, or it is still in the loop. *)
Inductive Ending :=
| SysExit (code : Z)
| Traceback (e : ScriptExn)
| Running.

Definition daemon_effects (t : list ScriptEffect) : list Effect :=
  omap (fun e => match e with InDaemon x => Some x | _ => None end) t.

Section Script.

(** [os.environ]; the built-in [float] ([None] is [ValueError]); and what
    the import of python-xlib yields ([None] when it fails). *)
Variable environ : string -> option string.
Variable py_float : string -> option PyFloat.
Variable xlib : option (XModule * (string -> option Z)).

(** [os.getenv(name, default)] *)
Definition getenv (name default_value : string) : string :=
  match environ name with
  | Some v => v
  | None => default_value
  end.

(** [LOG_LEVEL == logging.DEBUG] *)
Definition LOG_DEBUG : bool :=
  String.eqb (str_lower (getenv "KIOSK_IDLE_DEBUG" "false")) "true".

Definition SCREEN_TIMEOUT_ENV : string := getenv "SCREEN_TIMEOUT" "0".

Definition SWALLOW_FIRST_TOUCH : bool :=
  String.eqb (str_lower (getenv "SWALLOW_FIRST_TOUCH" "true")) "true".

(** [main()], with the loop of [run] cut after [n] passes. *)
Definition main (X : XModule) (xinput : string -> option Z)
    (SCREEN_TIMEOUT : Z) (n : nat) (w : World)
  : Ending * list ScriptEffect :=
  let o := (__init__ xinput SCREEN_TIMEOUT ;;
            run X xinput LOG_DEBUG n)%daemon uninitialised w in
  match result o with
  | Ret _ => (Running, map InDaemon (emitted o))
  | Raise e =>
      (SysExit 1,
       (map InDaemon (emitted o) ++
        [AtTopLevel LogCritical (MsgUnhandled e)])%list)
  end.

(** The script from its first line to [main()]. *)
Definition kiosk_idle (n : nat) (w : World) : Ending * list ScriptEffect :=
  match xlib with
  | None => (SysExit 1, [AtTopLevel LogError MsgImportFailed])
  | Some (X, xinput) =>
      match py_float SCREEN_TIMEOUT_ENV with
      | None =>
          (SysExit 1,
           [AtTopLevel LogError (MsgInvalidTimeout SCREEN_TIMEOUT_ENV)])
      | Some x =>
          match py_int x with
          | inl ValueError =>
              (SysExit 1,
               [AtTopLevel LogError (MsgInvalidTimeout SCREEN_TIMEOUT_ENV)])
          | inl OverflowError => (Traceback OverflowError, [])
          | inr SCREEN_TIMEOUT =>
              if (SCREEN_TIMEOUT <=? 0)%Z then
                (SysExit 0, [AtTopLevel LogInfo MsgNothingToManage])
              else if negb SWALLOW_FIRST_TOUCH then
                (SysExit 0, [AtTopLevel LogInfo MsgSwallowDisabled])
              else main X xinput SCREEN_TIMEOUT n w
          end
      end
  end.


(** *** Properties of the script *)

(** [int(float)] of a finite value. *)
Definition truncated (q : Q) : Z := Z.quot (Qnum q) (Zpos (Qden q)).

Lemma truncated_nonpositive (q : Q) :
  (truncated q <=? 0)%Z = true <-> (q < 1)%Q.
Proof.
  unfold truncated, Qlt. destruct q as [a b]. cbn [Qnum Qden].
  rewrite Z.leb_le, Z.mul_1_r, Z.mul_1_l.
  pose proof (Pos2Z.is_pos b) as Hb.
  split; intros H.
  - destruct (Z_lt_le_dec a (Z.pos b)) as [Hlt|Hle]; [exact Hlt|].
    assert (1 <= a ÷ Z.pos b)%Z; [|lia].
    apply Z.quot_le_lower_bound; lia.
  - destruct (Z_lt_le_dec a 0) as [Hneg|Hpos].
    + apply Z.quot_le_upper_bound; lia.
    + rewrite Z.quot_small; lia.
Qed.

Lemma truncated_below (q : Q) :
  (1 <= q)%Q -> (1 <= truncated q)%Z /\ (inject_Z (truncated q) <= q)%Q.
Proof.
  intros H. split.
  - destruct (truncated q <=? 0)%Z eqn:Ht.
    + apply truncated_nonpositive in Ht. lra.
    + apply Z.leb_gt in Ht. lia.
  - unfold truncated, Qle, inject_Z. destruct q as [a b]. cbn [Qnum Qden] in *.
    unfold Qle in H. cbn in H. rewrite Z.mul_1_r.
    rewrite Z.mul_comm. apply Z.mul_quot_le; lia.
Qed.



Lemma main_opens_display X xinput T n w :
  In (InDaemon (EX OpenDisplay)) (snd (main X xinput T n w)).
Proof.
  unfold main.
  pose proof (init_opens_display xinput T w) as Hin.
  destruct (result (__init__ xinput T uninitialised w)) as [[]|e] eqn:Hi.
  - rewrite (bind_returned _ _ _ _ _ Hi). unfold after; cbn [result emitted].
    destruct (result (run _ _ _ _ _ _)); cbn [snd];
      rewrite ?map_app; repeat (apply in_or_app; left);
      apply in_map, Hin.
  - rewrite (bind_raised _ _ _ _ _ Hi). cbn [result emitted snd].
    apply in_or_app; left. apply in_map, Hin.
Qed.

(** X13 (when the daemon is started).  The script reaches [main()] --
    and only then touches the display at all -- exactly when python-xlib
    could be imported, [SCREEN_TIMEOUT] is the text of a finite number
    [q >= 1], and [SWALLOW_FIRST_TOUCH] is "true" in any letter case.  The
    daemon then runs with the timeout [int(q)], which is at least 1 and at
    most [q].  A timeout below 1 -- a negative one, zero, but also a
    fraction such as 0.5 -- makes the script exit with status 0 whatever
    [SWALLOW_FIRST_TOUCH] says; and whenever [main()] is not reached the
    script has ended without any effect of the daemon. *)
Theorem daemon_starts_only_when_configured (n : nat) (w : World) :
  let r := kiosk_idle n w in
  (In (InDaemon (EX OpenDisplay)) (snd r) <->
   exists X xinput q,
     xlib = Some (X, xinput) /\
     py_float SCREEN_TIMEOUT_ENV = Some (Finite q) /\ (1 <= q)%Q /\
     SWALLOW_FIRST_TOUCH = true) /\
  (forall X xinput q,
     xlib = Some (X, xinput) ->
     py_float SCREEN_TIMEOUT_ENV = Some (Finite q) -> (1 <= q)%Q ->
     SWALLOW_FIRST_TOUCH = true ->
     r = main X xinput (truncated q) n w /\
     (1 <= truncated q)%Z /\ (inject_Z (truncated q) <= q)%Q) /\
  (forall q,
     xlib <> None ->
     py_float SCREEN_TIMEOUT_ENV = Some (Finite q) -> (q < 1)%Q ->
     r = (SysExit 0, [AtTopLevel LogInfo MsgNothingToManage])) /\
  (~ In (InDaemon (EX OpenDisplay)) (snd r) ->
   daemon_effects (snd r) = [] /\ fst r <> Running).
Proof.
  cbv zeta.
  assert (Started : forall X xinput q,
            xlib = Some (X, xinput) ->
            py_float SCREEN_TIMEOUT_ENV = Some (Finite q) -> (1 <= q)%Q ->
            SWALLOW_FIRST_TOUCH = true ->
            kiosk_idle n w = main X xinput (truncated q) n w).
  { intros X xinput q Hx Hf Hq Hs. unfold kiosk_idle.
    rewrite Hx, Hf. cbn [py_int]. fold (truncated q).
    destruct (truncated q <=? 0)%Z eqn:Ht.
    - apply truncated_nonpositive in Ht. lra.
    - rewrite Hs. reflexivity. }
  split; [|split; [|split]].
  - split.
    + unfold kiosk_idle.
      destruct xlib as [[X xinput]|]; [|cbn; intuition discriminate].
      destruct (py_float SCREEN_TIMEOUT_ENV) as [[q|neg|]|];
        cbn [py_int]; try (cbn; intuition discriminate).
      fold (truncated q).
      destruct (truncated q <=? 0)%Z eqn:Ht; [cbn; intuition discriminate|].
      destruct SWALLOW_FIRST_TOUCH; cbn [negb];
        [|cbn; intuition discriminate].
      intros _. exists X, xinput, q. repeat split; auto.
      destruct (Qlt_le_dec q 1) as [Hlt|Hle]; [|exact Hle].
      apply truncated_nonpositive in Hlt. congruence.
    + intros (X & xinput & q & Hx & Hf & Hq & Hs).
      rewrite (Started X xinput q Hx Hf Hq Hs). apply main_opens_display.
  - intros X xinput q Hx Hf Hq Hs.
    split; [apply Started; assumption | apply truncated_below, Hq].
  - intros q Hx Hf Hq. unfold kiosk_idle.
    destruct xlib as [[X xinput]|]; [|congruence].
    rewrite Hf. cbn [py_int]. fold (truncated q).
    apply truncated_nonpositive in Hq. rewrite Hq. reflexivity.
  - unfold kiosk_idle.
    destruct xlib as [[X xinput]|]; [|cbn; split; [reflexivity|discriminate]].
    destruct (py_float SCREEN_TIMEOUT_ENV) as [[q|neg|]|];
      cbn [py_int]; try (cbn; split; [reflexivity|discriminate]).
    fold (truncated q).
    destruct (truncated q <=? 0)%Z; [cbn; split; [reflexivity|discriminate]|].
    destruct SWALLOW_FIRST_TOUCH; cbn [negb];
      [|cbn; split; [reflexivity|discriminate]].
    intros H. exfalso. apply H, main_opens_display.
Qed.



End Script.

(* ===================================================================== *)
(** ** The further properties at concrete inputs *)
(* ===================================================================== *)

(** An environment that asks for a timeout of five minutes, and one that
    asks for half a second; [float] on the few texts used here. *)
Definition five_minutes (name : string) : option string :=
  if String.eqb name "SCREEN_TIMEOUT" then Some "300.9"
  else if String.eqb name "SWALLOW_FIRST_TOUCH" then Some "True"
  else None.

Definition half_a_second (name : string) : option string :=
  if String.eqb name "SCREEN_TIMEOUT" then Some "0.5"
  else if String.eqb name "SWALLOW_FIRST_TOUCH" then Some "false"
  else None.

Definition float_of_sample (s : string) : option PyFloat :=
  if String.eqb s "300.9" then Some (Finite (3009 # 10))
  else if String.eqb s "0.5" then Some (Finite (1 # 2))
  else if String.eqb s "0" then Some (Finite 0)
  else if String.eqb s "inf" then Some (Infinity false)
  else if String.eqb s "nan" then Some NaN
  else None.

(** The power-off command cannot be run, the blank happens all the same. *)
Lemma power_command_failure_is_absorbed_witness :
  let w := mkWorld (fun _ => 0%Q) (fun _ => false) (fun _ => 0)
                   (fun _ => 4194305) (fun _ => true) (fun _ => true) O [] in
  blanked awake_daemon = false /\ creation_succeeds w = true /\
  blanked (self' (blank_screen awake_daemon w)) = true.
Proof.
  intros w.
  destruct (power_command_failure_is_absorbed power_off_cmd awake_daemon w)
    as (_ & _ & _ & _ & H & _).
  destruct (H eq_refl eq_refl) as (_ & Hb & _).
  split; [reflexivity|]. split; [reflexivity | exact Hb].
Defined.

(** Blanking while the server refuses every request. *)
Lemma failed_blank_changes_nothing_witness :
  let o := blank_screen awake_daemon (failing 9 []) in
  result o =
    Raise (XError (CreateWindow 4194305 0 true overlay_event_mask)) /\
  self' o = awake_daemon /\ shell_cmds (emitted o) = [].
Proof.
  intros o.
  destruct (failed_blank_changes_nothing awake_daemon (failing 9 [])
              (XError (CreateWindow 4194305 0 true overlay_event_mask))
              eq_refl) as (_ & _ & _ & _ & Hs & Hc).
  split; [reflexivity | split; [exact Hs | exact Hc]].
Defined.

(** Blank at time 6, wake at time 9. *)
Lemma blank_then_wake_restores_witness :
  let d1 := self' (blank_screen awake_daemon (steady 6 0 [])) in
  blanked awake_daemon = false /\ overlay awake_daemon = None /\
  result (blank_screen awake_daemon (steady 6 0 [])) = Ret tt /\
  self' (wake_screen d1 (steady 9 0 [])) =
    assign (SetLastActivity 9) awake_daemon.
Proof.
  intros d1.
  destruct (blank_then_wake_restores awake_daemon (steady 6 0 [])
              (steady 9 0 []) eq_refl eq_refl eq_refl)
    as (_ & _ & _ & _ & now & Hs & Hn).
  split; [reflexivity|]. split; [reflexivity|]. split; [reflexivity|].
  unfold d1. rewrite Hs, Hn. reflexivity.
Defined.

(** A clock that reads earlier than the last activity. *)
Lemma idle_seconds_nonnegative_witness :
  let d := mkDaemon 5 None false 50 false false in
  let w := steady 20 0 [] in
  (0 <= ss_idle w (tick w))%Z /\
  result (get_idle_seconds d w) = Ret 0%Q.
Proof.
  intros d w.
  assert (Hidle : (0 <= ss_idle w (tick w))%Z) by (cbn; lia).
  split; [exact Hidle|].
  destruct (idle_seconds_nonnegative d w Hidle) as (_ & _ & H).
  apply H; [reflexivity|]. cbn. unfold Qle; cbn; lia.
Defined.

(** Raw motion and a structure notification on a blanked screen. *)
Lemma batch_without_trigger_stays_blanked_witness :
  let w := steady 9 0 [raw 17; configure_notify; raw 14] in
  let o := process_events X11 xinput2 true true blanked_daemon w in
  blanked blanked_daemon = true /\
  blanked (self' o) = true /\ last_activity (self' o) = 9%Q.
Proof.
  intros w o.
  destruct (batch_without_trigger_stays_blanked X11 xinput2 true
              blanked_daemon w eq_refl eq_refl) as (Hb & _).
  split; [reflexivity | split; [exact Hb | reflexivity]].
Defined.

(** Two seconds idle against a timeout of five: a wait of three. *)
Lemma wait_timeout_in_range_witness :
  let w := steady 2 2000 [] in
  (0 <= ss_idle w (tick w))%Z /\
  Forall (sound_wait 5)
         (waits (emitted (run_iteration X11 xinput2 true awake_daemon w))) /\
  waits (emitted (run_iteration X11 xinput2 true awake_daemon w)) =
    [Some (5 - 2000 / 1000)%Q].
Proof.
  intros w.
  assert (Hidle : (0 <= ss_idle w (tick w))%Z) by (cbn; lia).
  split; [exact Hidle|].
  destruct (wait_timeout_in_range X11 xinput2 true awake_daemon w Hidle)
    as [_ H].
  split; [exact H | reflexivity].
Defined.

(** Startup without a display. *)
Lemma init_is_fatal_only_without_connection_witness :
  x_raises (failing 0 []) (tick (failing 0 [])) = true /\
  result (__init__ xinput2 5 uninitialised (failing 0 [])) =
    Raise (XError OpenDisplay).
Proof.
  destruct (init_is_fatal_only_without_connection xinput2 5 (failing 0 []))
    as (H & _).
  split; [reflexivity | exact (H eq_refl)].
Defined.

(** Startup without the screen-saver extension: the subscription is made,
    touch names included. *)
Lemma raw_subscription_needs_every_step_witness :
  let o := __init__ xinput2 5 uninitialised (no_screensaver 0 []) in
  xi2_raw_enabled (self' o) = true /\
  In (EX (XISelectEvents [17; 13; 14; 15; 16; 22; 24; 23])) (emitted o).
Proof.
  intros o.
  destruct (raw_subscription_needs_every_step xinput2 5 (no_screensaver 0 []))
    as (_ & H & _).
  destruct (H eq_refl) as (m1 & m2 & m3 & m4 & m5 & Hm & Hin).
  split; [reflexivity|].
  injection Hm as <- <- <- <- <-. exact Hin.
Defined.

(** [SCREEN_TIMEOUT=300.9] starts the daemon with a timeout of 300;
    [SCREEN_TIMEOUT=0.5] exits with status 0. *)
Lemma daemon_starts_only_when_configured_witness :
  let lib := Some (X11, xinput2) in
  fst (kiosk_idle half_a_second float_of_sample lib 3 (steady 0 0 [])) =
    SysExit 0 /\
  kiosk_idle five_minutes float_of_sample lib 3 (steady 0 0 []) =
    main five_minutes X11 xinput2 300 3 (steady 0 0 []).
Proof.
  intros lib.
  destruct (daemon_starts_only_when_configured half_a_second float_of_sample
              lib 3 (steady 0 0 [])) as (_ & _ & Hlow & _).
  destruct (daemon_starts_only_when_configured five_minutes float_of_sample
              lib 3 (steady 0 0 [])) as (_ & Hrun & _).
  split.
  - rewrite (Hlow (1 # 2)); [reflexivity | discriminate | reflexivity |
                              reflexivity].
  - destruct (Hrun X11 xinput2 (3009 # 10) eq_refl eq_refl) as (H & _);
      [unfold Qle; cbn; lia | reflexivity | exact H].
Defined.
